(** * SplitDex: a shallow embedding of the streaming re-indexing pipeline

    The development follows the layout of the repository:
    - [Py]          the Python values and built-ins the code relies on;
    - [SdModel]     src/model/__init__.py (date formats, [formateDate]);
    - [SdUtility]   src/utility/SdUtility.py;
    - [SdValidator] src/utility/SdValidator.py;
    - [SdElastic]   src/library/SdElastic.py (query construction);
    - [SplitDex]    src/controller/SdCtrl.py and splitdex.py.

    Integers are [Z], strings are [string], a Python [dict] read from JSON
    is an association list with string keys, and an exception is a value of
    [exn] returned through [result]. *)

From Stdlib Require Import List ZArith String Ascii Bool Lia Permutation.
Import ListNotations.

Set Warnings "-register-all".

Open Scope string_scope.
Open Scope list_scope.
Open Scope Z_scope.

(* ================================================================== *)
(** ** Python values and built-ins *)
(* ================================================================== *)

Module Py.

(** The exceptions that the modelled code can see. *)
Inductive exn : Type :=
| AttributeError
| TypeError
| ValueError
| KeyError
| OverflowError
| ValidationError
| ConnectionError
| TransportError.

Inductive result (A : Type) : Type :=
| Ok (a : A)
| Raise (e : exn).
Arguments Ok {A} a.
Arguments Raise {A} e.

Definition bind {A B : Type} (r : result A) (k : A -> result B) : result B :=
  match r with
  | Ok a => k a
  | Raise e => Raise e
  end.

Notation "'let?' x ':=' r 'in' k" := (bind r (fun x => k))
  (at level 10, x pattern, r at level 100, k at level 200).

Definition is_ok {A : Type} (r : result A) : bool :=
  match r with Ok _ => true | Raise _ => false end.

(** JSON-shaped Python values.  Floats are outside the model. *)
Inductive pyval : Type :=
| PNone
| PBool (b : bool)
| PInt (z : Z)
| PStr (s : string)
| PList (l : list pyval)
| PDict (kv : list (string * pyval)).

(** [d.get(key, None)] on the items of a dict. *)
Fixpoint dict_get (kv : list (string * pyval)) (key : string) : pyval :=
  match kv with
  | [] => PNone
  | (k, v) :: rest => if String.eqb k key then v else dict_get rest key
  end.

(** [d.get(key, default)]. *)
Fixpoint dict_get_default (kv : list (string * pyval)) (key : string)
    (default : pyval) : pyval :=
  match kv with
  | [] => default
  | (k, v) :: rest =>
      if String.eqb k key then v else dict_get_default rest key default
  end.

(** Truth value of an object ([bool(x)]). *)
Definition truthy (v : pyval) : bool :=
  match v with
  | PNone => false
  | PBool b => b
  | PInt z => negb (z =? 0)
  | PStr s => negb (String.eqb s "")
  | PList l => match l with [] => false | _ => true end
  | PDict kv => match kv with [] => false | _ => true end
  end.

(** Truth value of an optional string (a [str] or [None]). *)
Definition truthy_str (o : option string) : bool :=
  match o with
  | None => false
  | Some s => negb (String.eqb s "")
  end.

Definition of_opt_str (o : option string) : pyval :=
  match o with
  | None => PNone
  | Some s => PStr s
  end.

(** Lexicographic order of [str] by code unit. *)
Fixpoint str_leb (a b : string) : bool :=
  match a, b with
  | EmptyString, _ => true
  | String _ _, EmptyString => false
  | String x a', String y b' =>
      if (nat_of_ascii x <? nat_of_ascii y)%nat then true
      else if (nat_of_ascii y <? nat_of_ascii x)%nat then false
      else str_leb a' b'
  end.

(** The integer behind a number ([bool] is a subclass of [int]). *)
Definition as_int (v : pyval) : option Z :=
  match v with
  | PInt z => Some z
  | PBool b => Some (if b then 1 else 0)
  | _ => None
  end.

(** [a <= b]: defined between numbers and between strings; every other
    pair raises [TypeError] (lists, which Python also orders, never reach
    a comparison in the modelled code). *)
Definition py_le (a b : pyval) : result bool :=
  match as_int a, as_int b with
  | Some x, Some y => Ok (x <=? y)
  | _, _ =>
      match a, b with
      | PStr x, PStr y => Ok (str_leb x y)
      | _, _ => Raise TypeError
      end
  end.

(** [a >= b]. *)
Definition py_ge (a b : pyval) : result bool := py_le b a.

(** [s.split(sep)] for a one-character separator. *)
Fixpoint split (sep : ascii) (s : string) : list string :=
  match s with
  | EmptyString => [EmptyString]
  | String c rest =>
      if Ascii.eqb c sep then EmptyString :: split sep rest
      else match split sep rest with
           | [] => [String c EmptyString]
           | word :: words => String c word :: words
           end
  end.

(** [sep.join(words)]. *)
Fixpoint join (sep : string) (words : list string) : string :=
  match words with
  | [] => EmptyString
  | [word] => word
  | word :: rest => String.append word (String.append sep (join sep rest))
  end.

(** [s.lower()] on ASCII text. *)
Definition lower_ascii (c : ascii) : ascii :=
  let n := nat_of_ascii c in
  if ((65 <=? n) && (n <=? 90))%nat then ascii_of_nat (n + 32) else c.

Fixpoint lower (s : string) : string :=
  match s with
  | EmptyString => EmptyString
  | String c rest => String (lower_ascii c) (lower rest)
  end.

(** *** [int(str)] on ASCII text: surrounding white space, an optional
    sign, decimal digits, single underscores between digits. *)

Definition is_digit (c : ascii) : bool :=
  let n := nat_of_ascii c in ((48 <=? n) && (n <=? 57))%nat.

Definition digit_value (c : ascii) : Z := Z.of_nat (nat_of_ascii c) - 48.

Definition is_space (c : ascii) : bool :=
  let n := nat_of_ascii c in
  ((n =? 32) || ((9 <=? n) && (n <=? 13)) || ((28 <=? n) && (n <=? 31)))%nat.

Fixpoint lstrip (s : string) : string :=
  match s with
  | EmptyString => EmptyString
  | String c rest => if is_space c then lstrip rest else s
  end.

Fixpoint string_rev_onto (s acc : string) : string :=
  match s with
  | EmptyString => acc
  | String c rest => string_rev_onto rest (String c acc)
  end.

Definition string_rev (s : string) : string := string_rev_onto s EmptyString.

Definition strip (s : string) : string :=
  string_rev (lstrip (string_rev (lstrip s))).

Fixpoint int_digits (s : string) (acc : Z) (after_digit : bool) : option Z :=
  match s with
  | EmptyString => if after_digit then Some acc else None
  | String c rest =>
      if is_digit c then int_digits rest (10 * acc + digit_value c) true
      else if Ascii.eqb c "_"%char && after_digit then
        match rest with
        | String d _ => if is_digit d then int_digits rest acc false else None
        | EmptyString => None
        end
      else None
  end.

Definition py_int (s : string) : option Z :=
  match strip s with
  | String "-"%char rest => option_map Z.opp (int_digits rest 0 false)
  | String "+"%char rest => int_digits rest 0 false
  | t => int_digits t 0 false
  end.

(** Decimal rendering of a non-negative number on [width] digits at least
    (the zero-padded fields of [strftime]). *)
Definition digit_char (d : Z) : ascii := ascii_of_nat (Z.to_nat (48 + d mod 10)).

Fixpoint render_digits (fuel : nat) (n : Z) (acc : string) : string :=
  match fuel with
  | O => acc
  | S fuel' =>
      let acc' := String (digit_char n) acc in
      if n / 10 =? 0 then acc' else render_digits fuel' (n / 10) acc'
  end.

Fixpoint zero_pad (missing : nat) (s : string) : string :=
  match missing with
  | O => s
  | S m => String "0"%char (zero_pad m s)
  end.

Definition padded (width : nat) (n : Z) : string :=
  let s := render_digits 20 n EmptyString in
  zero_pad (width - String.length s) s.

End Py.
Import Py.

(* ================================================================== *)
(** ** src/model/__init__.py *)
(* ================================================================== *)

Module SdModel.

(** A calendar date: what the four supported patterns read from a
    [datetime]. *)
Record date : Type := mkDate { year : Z; month : Z; day : Z }.

(** [DateFormatter.FORMATS]: the supported keys and their [strftime]
    patterns. *)
Definition FORMATS : list (string * string) :=
  [ ("YYYYmm", "%Y%m");
    ("YYYYmmdd", "%Y%m%d");
    ("YYYY-mm-dd", "%Y-%m-%d");
    ("ddmmYYYY", "%d%m%Y") ].

Fixpoint lookup (table : list (string * string)) (key : string)
    : option string :=
  match table with
  | [] => None
  | (k, v) :: rest => if String.eqb k key then Some v else lookup rest key
  end.

(** [date.strftime(pattern)] for patterns made of [%Y], [%m], [%d] and
    literal characters; [%Y] is rendered on four digits. *)
Fixpoint strftime (d : date) (pattern : string) : string :=
  match pattern with
  | EmptyString => EmptyString
  | String "%"%char (String "Y"%char rest) =>
      String.append (padded 4 (year d)) (strftime d rest)
  | String "%"%char (String "m"%char rest) =>
      String.append (padded 2 (month d)) (strftime d rest)
  | String "%"%char (String "d"%char rest) =>
      String.append (padded 2 (day d)) (strftime d rest)
  | String c rest => String c (strftime d rest)
  end.

(** [DateFormatter.formateDate]. *)
Definition formateDate (d : date) (fmt : string) : result string :=
  match lookup FORMATS fmt with
  | None => Raise ValueError
  | Some pattern => Ok (strftime d pattern)
  end.

(** [DateFormats(value)], [SortOrder(value)], [IsoFormat(value)]: the
    enumeration lookups, which raise [ValueError] on any other value. *)
Definition DateFormats_values : list string :=
  ["YYYYmm"; "YYYYmmdd"; "YYYY-mm-dd"; "ddmmYYYY"].
Definition SortOrder_values : list string := ["asc"; "desc"].
Definition IsoFormat_values : list string := ["epoch_millis"; "epoch_second"].

Definition member (values : list string) (v : string) : bool :=
  existsb (String.eqb v) values.

Definition enum_lookup (values : list string) (v : string) : result string :=
  if member values v then Ok v else Raise ValueError.

(** The three configuration dataclasses. *)
Record ElasticConfig : Type := mkElasticConfig {
  es_url : string;
  es_username : string;
  es_password : string;
  es_timeout : string;
  es_index_name : string;
  es_field : string
}.

Record EngineConfig : Type := mkEngineConfig {
  batch_size : Z;
  max_retry_connection : Z;
  format_date : string
}.

Record QueryConfig : Type := mkQueryConfig {
  used_query : string;
  gte : option string;
  lte : option string;
  iso_format : option string;
  sort_order : string
}.

End SdModel.

(* ================================================================== *)
(** ** src/utility/SdUtility.py *)
(* ================================================================== *)

Module SdUtility.
Import SdModel.

(** *** The proleptic Gregorian calendar of [datetime] *)

Definition is_leap (y : Z) : bool :=
  (y mod 4 =? 0) && (negb (y mod 100 =? 0) || (y mod 400 =? 0)).

Definition days_before_year (y : Z) : Z :=
  let p := y - 1 in p * 365 + p / 4 - p / 100 + p / 400.

Definition days_in_month (y m : Z) : Z :=
  if m =? 2 then (if is_leap y then 29 else 28)
  else if (m =? 4) || (m =? 6) || (m =? 9) || (m =? 11) then 30
  else 31.

(** Days of the year before the first of month [m]. *)
Definition DAYS_BEFORE_MONTH (m : Z) : Z :=
  nth (Z.to_nat m) [0; 0; 31; 59; 90; 120; 151; 181; 212; 243; 273; 304; 334] 0.

Definition days_before_month (y m : Z) : Z :=
  DAYS_BEFORE_MONTH m + (if (2 <? m) && is_leap y then 1 else 0).

(** Day number of a date, 0001-01-01 being day 1. *)
Definition ymd2ord (d : date) : Z :=
  days_before_year (year d) + days_before_month (year d) (month d) + day d.

Definition MINYEAR : Z := 1.
Definition MAXYEAR : Z := 9999.
Definition EPOCH_ORDINAL : Z := 719163.
Definition MAX_ORDINAL : Z := 3652059.

(** [datetime(year, month, day)] accepts exactly these. *)
Definition valid_date (d : date) : bool :=
  (MINYEAR <=? year d) && (year d <=? MAXYEAR) &&
  (1 <=? month d) && (month d <=? 12) &&
  (1 <=? day d) && (day d <=? days_in_month (year d) (month d)).

(** The date of a day number, by 400-, 100-, 4- and 1-year cycles. *)
Definition ord2ymd (ordinal : Z) : date :=
  let n := ordinal - 1 in
  let n400 := n / 146097 in
  let n := n mod 146097 in
  let n100 := n / 36524 in
  let n := n mod 36524 in
  let n4 := n / 1461 in
  let n := n mod 1461 in
  let n1 := n / 365 in
  let n := n mod 365 in
  let y := n400 * 400 + 1 + n100 * 100 + n4 * 4 + n1 in
  if (n1 =? 4) || (n100 =? 4) then mkDate (y - 1) 12 31
  else
    let leapyear := (n1 =? 3) && (negb (n4 =? 24) || (n100 =? 3)) in
    let m := Z.shiftr (n + 50) 5 in
    let preceding :=
      DAYS_BEFORE_MONTH m + (if (2 <? m) && leapyear then 1 else 0) in
    if n <? preceding then
      let m' := m - 1 in
      let in_month :=
        (if m' =? 2 then 28
         else if (m' =? 4) || (m' =? 6) || (m' =? 9) || (m' =? 11) then 30
         else 31) + (if (m' =? 2) && leapyear then 1 else 0) in
      mkDate y m' (n - (preceding - in_month) + 1)
    else mkDate y m (n - preceding + 1).

Section Utility.

(** The built-in [int] on strings, and the offset of the local time zone
    from UTC in seconds, which [datetime.fromtimestamp] applies. *)
Variable int : string -> option Z.
Variable utcoffset : Z.

Definition argToJson {A : Type} (kwargs : A) : A := kwargs.

(** [datetime.fromtimestamp(timestamp)]: a number, within the years
    [MINYEAR..MAXYEAR] of the local calendar. *)
Definition fromtimestamp (timestamp : pyval) : result date :=
  match as_int timestamp with
  | None => Raise TypeError
  | Some t =>
      let ordinal := (t + utcoffset) / 86400 + EPOCH_ORDINAL in
      if (1 <=? ordinal) && (ordinal <=? MAX_ORDINAL)
      then Ok (ord2ymd ordinal)
      else Raise ValueError
  end.

Definition timestampToDate (timestamp : pyval) (fmt : string)
    : result string :=
  let? dt := fromtimestamp timestamp in
  formateDate dt fmt.

(** [dateToEpoch]: [None] (here [PNone]) for anything but a string. *)
Definition dateToEpoch (dates : pyval) (millis : bool) : result pyval :=
  match dates with
  | PStr s =>
      match map int (split "-"%char s) with
      | [Some y; Some m; Some d] =>
          let dt := mkDate y m d in
          if valid_date dt then
            let timestamp := (ymd2ord dt - EPOCH_ORDINAL) * 86400 in
            if millis then Ok (PInt (timestamp * 1000))
            else Ok (PInt timestamp)
          else Raise ValueError
      | _ => Raise ValueError
      end
  | _ => Ok PNone
  end.

(** [validateTimestampQuery]: the result is a [bool], or [None] when no
    bound is configured. *)
Definition validateTimestampQuery (gte lte : option string)
    (timestamp gte_threshold lte_threshold : pyval) : result pyval :=
  if truthy_str gte && truthy_str lte then
    let? above := py_ge timestamp gte_threshold in
    if above then
      let? below := py_le timestamp lte_threshold in Ok (PBool below)
    else Ok (PBool false)
  else if truthy_str gte then
    let? above := py_ge timestamp gte_threshold in Ok (PBool above)
  else if truthy_str lte then
    let? below := py_le timestamp lte_threshold in Ok (PBool below)
  else Ok PNone.

Definition templateIndex (index date : string) : string :=
  String.append index (String.append "-" date).

(** [getNestedValue]: the fold of [d.get(key)] along the dotted path; a
    step from anything but a dict gives [None]. *)
Definition nested_step (d : pyval) (key : string) : pyval :=
  match d with
  | PDict kv => dict_get kv key
  | _ => PNone
  end.

Definition getNestedValue (data : pyval) (keys : string) : pyval :=
  fold_left nested_step (split "."%char keys) data.

(** [numProcess]: [max(1, int(cpu_count() * 0.75))]; the product is exact
    in floating point, so its integer part is [3 * cpu_count / 4]. *)
Definition numProcess (cpu_count : Z) : Z := Z.max 1 (3 * cpu_count / 4).

End Utility.

End SdUtility.

(* ================================================================== *)
(** ** src/utility/SdValidator.py *)
(* ================================================================== *)

Module SdValidator.
Import SdModel.

(** A parsed ini file: sections by name, each with its options. *)
Definition section : Type := list (string * string).
Definition ini : Type := list (string * section).

Fixpoint option_of (sec : section) (key : string) : option string :=
  match sec with
  | [] => None
  | (k, v) :: rest => if String.eqb k key then Some v else option_of rest key
  end.

Fixpoint section_of (config : ini) (name : string) : option section :=
  match config with
  | [] => None
  | (k, sec) :: rest =>
      if String.eqb k name then Some sec else section_of rest name
  end.

(** The fields of an [SdValidator] object that validation reads and
    writes. *)
Record validator : Type := mkValidator {
  config : ini;
  _engine_config : option EngineConfig;
  _query_config : option QueryConfig
}.

Definition set_engine (v : validator) (c : option EngineConfig) : validator :=
  mkValidator (config v) c (_query_config v).

Definition set_query (v : validator) (c : option QueryConfig) : validator :=
  mkValidator (config v) (_engine_config v) c.

Section Validation.

(** The built-in [int] on strings, and whether
    [datetime.strptime(s, '%Y-%m-%d')] accepts [s]. *)
Variable int : string -> option Z.
Variable strptime_ymd : string -> bool.

(** One of the two bounded integer options: the value read, if any, and
    the errors to append.  [None] for the outcome is the [KeyError] of a
    missing option, which leaves the function through its outer handler. *)
Definition check_bounded (sec : section) (key : string) (upper : Z)
    (too_small too_large not_integer : string)
    : option (option Z * list string) :=
  match option_of sec key with
  | None => None
  | Some text =>
      match int text with
      | None => Some (None, [not_integer])
      | Some n =>
          if n <? 1 then Some (Some n, [too_small])
          else if upper <? n then Some (Some n, [too_large])
          else Some (Some n, [])
      end
  end.

Definition key_error (context key : string) : string :=
  String.append context (String.append "'" (String.append key "'")).

Definition invalid_enum (name : string) (values : list string) : string :=
  String.append "Invalid "
    (String.append name
       (String.append ". Must be one of: " (join ", " values))).

(** [validate_engine_config]: the pair it returns and the object after the
    call. *)
Definition validate_engine_config (self : validator)
    : (bool * list string) * validator :=
  match section_of (config self) "engine" with
  | None => ((false, ["Missing [engine] section in config file"]), self)
  | Some engine_config =>
      let failed key :=
        ((false, [key_error "Error validating engine config: " key]), self) in
      match check_bounded engine_config "batch_size" 1000
              "batch_size must be greater than equal to 1"
              "batch_size must be less than equal to 1000"
              "batch_size must be an integer" with
      | None => failed "batch_size"
      | Some (batch, errors1) =>
          match check_bounded engine_config "max_retry_connection" 10
                  "max_retry_connection must be greater than to 1"
                  "max_retry_connection must be less than equal to 10"
                  "max_retry_connection must be an integer" with
          | None => failed "max_retry_connection"
          | Some (retry, errors2) =>
              match option_of engine_config "format_date" with
              | None => failed "format_date"
              | Some fmt =>
                  let errors3 :=
                    if member DateFormats_values fmt then []
                    else [invalid_enum "format_date" DateFormats_values] in
                  let errors := errors1 ++ errors2 ++ errors3 in
                  match errors, batch, retry with
                  | [], Some b, Some r =>
                      ((true, []),
                       set_engine self (Some (mkEngineConfig b r fmt)))
                  | _, _, _ => ((false, errors), self)
                  end
              end
          end
      end
  end.


(** The check of one date bound in [validate_query_config]. *)
Definition date_errors (sec : section) (date_field : string) : list string :=
  match option_of sec date_field with
  | Some text =>
      if negb (String.eqb text "") && negb (strptime_ymd text)
      then [String.append date_field " must be in YYYY-MM-DD format"]
      else []
  | None => []
  end.

Definition option_or (sec : section) (key default : string) : string :=
  match option_of sec key with
  | Some v => v
  | None => default
  end.

(** [validate_query_config]. *)
Definition validate_query_config (self : validator)
    : (bool * list string) * validator :=
  match section_of (config self) "query" with
  | None => ((false, ["Missing [query] section in config file"]), self)
  | Some query_config =>
      let used := lower (option_or query_config "used_query" "no") in
      let errors1 :=
        if member ["yes"; "no"] used then []
        else ["used_query must be 'yes' or 'no'"] in
      let errors2 :=
        date_errors query_config "gte" ++ date_errors query_config "lte" in
      let errors3 :=
        match option_of query_config "iso_format" with
        | Some v =>
            if member IsoFormat_values v then []
            else [invalid_enum "iso_format" IsoFormat_values]
        | None => []
        end in
      let errors4 :=
        match option_of query_config "sort_order" with
        | Some v =>
            if member SortOrder_values (lower v) then []
            else [invalid_enum "sort_order" SortOrder_values]
        | None => []
        end in
      let errors := errors1 ++ errors2 ++ errors3 ++ errors4 in
      match errors with
      | [] =>
          ((true, []),
           set_query self
             (Some (mkQueryConfig used
                      (option_of query_config "gte")
                      (option_of query_config "lte")
                      (option_of query_config "iso_format")
                      (lower (option_or query_config "sort_order" "asc")))))
      | _ => ((false, errors), self)
      end
  end.

(** [get_query_config]. *)
Definition get_query_config (self : validator)
    : option QueryConfig * validator :=
  match _query_config self with
  | Some c => (Some c, self)
  | None =>
      let '((is_valid, _), self') := validate_query_config self in
      if is_valid then (_query_config self', self') else (None, self')
  end.

End Validation.

End SdValidator.

(* ================================================================== *)
(** ** src/library/SdElastic.py *)
(* ================================================================== *)

Module SdElastic.

(** The attributes that an [SdElasticConnect] object has: the four set by
    [__init__] and the methods of the class. *)
Definition attributes : list string :=
  [ "logger"; "config"; "connectEs"; "configEs";
    "connect"; "_buildQueryMatchAll"; "searchAll"; "_buildQuery";
    "searchQuery"; "bulkIndex"; "close" ].

Definition hasattr (name : string) : bool :=
  existsb (String.eqb name) attributes.

(** An [SdElasticConnect] object: the client it holds, named by the rank
    of its construction. *)
Record SdElasticConnect : Type := mkConnect { connectEs : option nat }.

(** The client stored under attribute [name], if that attribute holds
    one. *)
Definition client_attr (e : SdElasticConnect) (name : string) : option nat :=
  if String.eqb name "connectEs" then connectEs e else None.

(** [_buildQueryMatchAll]. *)
Definition _buildQueryMatchAll : pyval :=
  PDict [("query", PDict [("match_all", PDict [])])].

(** [_buildQuery]. *)
Definition _buildQuery (field : string) (gte lte format sort_order : pyval)
    : pyval :=
  let range_params :=
    (match gte with PNone => [] | _ => [("gte", gte)] end) ++
    (match lte with PNone => [] | _ => [("lte", lte)] end) ++
    (match format with PNone => [] | _ => [("format", format)] end) in
  let query :=
    ("query",
     PDict [("bool",
             PDict [("must",
                     PList [PDict [("range",
                                    PDict [(field, PDict range_params)])]])])])
  in
  match sort_order with
  | PNone => PDict [query]
  | _ =>
      PDict [query;
             ("sort", PList [PDict [(field, PDict [("order", sort_order)])]])]
  end.

End SdElastic.

(* ================================================================== *)
(** ** src/controller/SdCtrl.py and splitdex.py *)
(* ================================================================== *)

Module SplitDex.
Import SdModel SdUtility SdElastic.

(** The constants of src/config/SdConfig.py that the pipeline reads. *)
Record SdConfig : Type := mkConfig {
  ES_INDEX_NAME : string;
  ES_FIELD : string;
  BATCH_SIZE : Z;
  MAX_RETRY_CONNECTION : Z;
  FORMAT_DATE : string;
  USED_QUERY : string;
  GTE : option string;
  LTE : option string;
  ISO_FORMAT : option string;
  SORT_ORDER : string
}.

(** One entry of a bulk request. *)
Record action : Type := mkAction {
  _index : pyval;
  _id : pyval;
  _source : pyval
}.

(** A chunk is a list of hits; a queue item is a chunk or [None], the
    termination signal. *)
Definition chunk : Type := list pyval.
Definition item : Type := option chunk.

(** What lies outside the process: the number of CPUs, the answer of each
    constructed client to [ping()], the outcome of each call of the bulk
    helper, whether another thread has set the stop event by the time of
    the producer's k-th test of it, and the local time zone. *)
Record World : Type := mkWorld {
  cpu_count : Z;
  es_ping : nat -> bool;
  es_bulk : nat -> list action -> result (Z * Z);
  cancel : nat -> bool;
  utcoffset : Z
}.

(** A [StreamingSplitDex] object, followed by the trace of its calls to
    the outside: clients constructed, bulk calls made, sleeps taken. *)
Record Self : Type := mkSelf {
  es : option SdElasticConnect;
  gte : pyval;
  lte : pyval;
  chunkQueue : list item;
  stopEvent : bool;
  totalSuccess : Z;
  totalFailed : Z;
  clients : nat;
  bulks : nat;
  sleeps : list Z
}.

(** [__init__]. *)
Definition init : Self :=
  mkSelf None PNone PNone [] false 0 0 O O [].

Definition with_es (s : Self) (v : option SdElasticConnect) : Self :=
  mkSelf v (gte s) (lte s) (chunkQueue s) (stopEvent s)
         (totalSuccess s) (totalFailed s) (clients s) (bulks s) (sleeps s).

Definition with_bounds (s : Self) (lo hi : pyval) : Self :=
  mkSelf (es s) lo hi (chunkQueue s) (stopEvent s)
         (totalSuccess s) (totalFailed s) (clients s) (bulks s) (sleeps s).

Definition with_queue (s : Self) (q : list item) : Self :=
  mkSelf (es s) (gte s) (lte s) q (stopEvent s)
         (totalSuccess s) (totalFailed s) (clients s) (bulks s) (sleeps s).

Definition with_stop (s : Self) (b : bool) : Self :=
  mkSelf (es s) (gte s) (lte s) (chunkQueue s) b
         (totalSuccess s) (totalFailed s) (clients s) (bulks s) (sleeps s).

Definition new_client (s : Self) : Self :=
  mkSelf (Some (mkConnect (Some (clients s)))) (gte s) (lte s)
         (chunkQueue s) (stopEvent s) (totalSuccess s) (totalFailed s)
         (S (clients s)) (bulks s) (sleeps s).

Definition count_bulk (s : Self) : Self :=
  mkSelf (es s) (gte s) (lte s) (chunkQueue s) (stopEvent s)
         (totalSuccess s) (totalFailed s) (clients s) (S (bulks s)) (sleeps s).

Definition sleep (s : Self) (seconds : Z) : Self :=
  mkSelf (es s) (gte s) (lte s) (chunkQueue s) (stopEvent s)
         (totalSuccess s) (totalFailed s) (clients s) (bulks s)
         (sleeps s ++ [seconds]).

(** [queue.put(x)] once it has returned: the item is at the end of the
    queue.  With it the producer is read on its own, as the sequence of
    its puts; the capacity of the queue and the wait of [put] while it is
    full are in [Threads.queue_put]. *)
Definition put (x : item) (s : Self) : Self :=
  with_queue s (chunkQueue s ++ [x]).

(** [self.<name>.set()]: the only event of the object is [stopEvent]. *)
Definition set_event (name : string) (s : Self) : result unit * Self :=
  if String.eqb name "stopEvent" then (Ok tt, with_stop s true)
  else (Raise AttributeError, s).

(** A document source: the items a lazy iterator yields, ended by
    exhaustion or by an error raised from [next]. *)
Inductive stream : Type :=
| SEnd
| SRaise
| SItem (doc : pyval) (rest : stream).

Fixpoint stream_of (docs : list pyval) (ending : stream) : stream :=
  match docs with
  | [] => ending
  | d :: rest => SItem d (stream_of rest ending)
  end.

(** Two states that differ at most in the queue and the stop event. *)
Definition producer_frame (s s' : Self) : Prop :=
  es s' = es s /\ gte s' = gte s /\ lte s' = lte s /\
  totalSuccess s' = totalSuccess s /\ totalFailed s' = totalFailed s /\
  clients s' = clients s /\ bulks s' = bulks s /\ sleeps s' = sleeps s.

Section Pipeline.

Variable int : string -> option Z.
Variable w : World.
Variable cfg : SdConfig.

(** *** SdCtrl.py *)

(** Which scan [getData] asks of the client. *)
Inductive scan : Type :=
| SearchAll
| SearchQuery (lo hi : pyval).

Definition getData (s : Self) : result scan * Self :=
  if String.eqb (USED_QUERY cfg) "no" then (Ok SearchAll, s)
  else
    match ISO_FORMAT cfg with
    | Some iso =>
        if member ["epoch_millis"; "epoch_second"] iso then
          match dateToEpoch int (of_opt_str (GTE cfg)) false with
          | Raise e => (Raise e, s)
          | Ok lo =>
              match dateToEpoch int (of_opt_str (LTE cfg)) false with
              | Raise e => (Raise e, with_bounds s lo (lte s))
              | Ok hi => (Ok (SearchQuery lo hi), with_bounds s lo hi)
              end
          end
        else
          let lo := of_opt_str (GTE cfg) in
          let hi := of_opt_str (LTE cfg) in
          (Ok (SearchQuery lo hi), with_bounds s lo hi)
    | None =>
        let lo := of_opt_str (GTE cfg) in
        let hi := of_opt_str (LTE cfg) in
        (Ok (SearchQuery lo hi), with_bounds s lo hi)
    end.

(** [MappingData(...).model_dump()]: the identifier and the index name
    must be strings and the data a dict. *)
Definition MappingData (dataId indexName data : pyval) : result pyval :=
  match dataId, indexName, data with
  | PStr _, PStr _, PDict _ =>
      Ok (PDict [("dataId", dataId); ("indexName", indexName); ("data", data)])
  | _, _, _ => Raise ValidationError
  end.

Definition mappingData (s : Self) (data : pyval) : result pyval :=
  match data with
  | PDict hit =>
      let id := dict_get_default hit "_id" PNone in
      let source := dict_get_default hit "_source" (PDict []) in
      let timestamp := getNestedValue source (ES_FIELD cfg) in
      let? date := timestampToDate (utcoffset w) timestamp (FORMAT_DATE cfg) in
      let indexName := templateIndex (ES_INDEX_NAME cfg) date in
      let? dumped := MappingData id (PStr indexName) source in
      if String.eqb (USED_QUERY cfg) "no" then Ok dumped
      else
        let? inside :=
          validateTimestampQuery (GTE cfg) (LTE cfg) timestamp (gte s) (lte s)
        in
        if truthy inside then Ok dumped else Ok (PDict [])
  | _ => Raise AttributeError
  end.

(** *** splitdex.py *)

(** [SdElasticConnect.connect] on the object held in [self.es]. *)
Definition connect (s : Self) : result unit * Self :=
  match es s with
  | None => (Raise AttributeError, s)
  | Some _ =>
      let s' := new_client s in
      if es_ping w (clients s) then (Ok tt, s')
      else (Raise ConnectionError, s')
  end.

Definition ensureConnectionES (s : Self) : result unit * Self :=
  let '(r, s1) :=
    match es s with
    | None => connect (with_es s (Some (mkConnect None)))
    | Some _ => (Ok tt, s)
    end in
  match r with
  | Raise e => (Raise e, s1)
  | Ok _ =>
      let lost :=
        negb (hasattr "_client") ||
        negb (match es s1 with
              | Some e =>
                  match client_attr e "_client" with
                  | Some c => es_ping w c
                  | None => false
                  end
              | None => false
              end) in
      if lost then connect s1 else (Ok tt, s1)
  end.

(** The body of the loop of [processChunk] for one item: the action it
    appends, or the exception that makes the loop skip the item. *)
Definition map_item (s : Self) (data : pyval) : result action :=
  let? mapped_data := mappingData s data in
  match mapped_data with
  | PDict kv =>
      Ok (mkAction (dict_get kv "indexName") (dict_get kv "dataId")
                   (dict_get kv "data"))
  | _ => Raise AttributeError
  end.

Fixpoint processChunk (s : Self) (c : chunk) : list action :=
  match c with
  | [] => []
  | data :: rest =>
      match map_item s data with
      | Ok a => a :: processChunk s rest
      | Raise _ => processChunk s rest
      end
  end.

(** [SdElasticConnect.bulkIndex] on [self.es]. *)
Definition bulkIndex (s : Self) (actions : list action)
    : result (Z * Z) * Self :=
  match es s with
  | None => (Raise AttributeError, s)
  | Some _ => (es_bulk w (bulks s) actions, count_bulk s)
  end.

(** The handler of [processAndIndexChunk]: count the attempt, drop the
    connection, and sleep unless the attempts are used up.  Closing the
    transport goes through [_client] and its failure is swallowed. *)
Definition on_error (retry_count : Z) (s : Self) : Z * Self :=
  let retry_count := retry_count + 1 in
  let s := with_es s None in
  if retry_count <? MAX_RETRY_CONNECTION cfg
  then (retry_count, sleep s (2 ^ retry_count))
  else (retry_count, s).

(** [processAndIndexChunk]: [fuel] bounds the number of times the loop
    condition is tested; a result [None] means that the bound was reached
    with the loop still running, in the state given. *)
Fixpoint retry_loop (fuel : nat) (c : chunk) (retry_count : Z) (s : Self)
    : option (Z * Z) * Self :=
  match fuel with
  | O => (None, s)
  | S fuel' =>
      if retry_count <? MAX_RETRY_CONNECTION cfg then
        let '(connected, s1) := ensureConnectionES s in
        match connected with
        | Raise _ =>
            let '(n, s2) := on_error retry_count s1 in
            retry_loop fuel' c n s2
        | Ok _ =>
            let actions := processChunk s1 c in
            match actions with
            | [] => (Some (0, 0), s1)
            | _ :: _ =>
                let '(written, s2) := bulkIndex s1 actions in
                match written with
                | Ok counts => (Some counts, s2)
                | Raise _ =>
                    let '(n, s3) := on_error 0 s2 in
                    retry_loop fuel' c n s3
                end
            end
        end
      else (Some (0, Z.of_nat (List.length c)), s)
  end.

Definition processAndIndexChunk (fuel : nat) (c : chunk) (s : Self)
    : option (Z * Z) * Self :=
  retry_loop fuel c 0 s.


(** [stopEvent.is_set()] at the producer's k-th test. *)
Definition is_set (k : nat) (s : Self) : bool * Self :=
  if stopEvent s || cancel w k then (true, with_stop s true) else (false, s).

(** The [try] block of [chunkProducer] up to the end of the [for] loop:
    the chunk in progress when the loop ends. *)
Fixpoint produce (data : stream) (current : chunk) (count : nat) (s : Self)
    : result (chunk * nat) * Self :=
  match data with
  | SEnd => (Ok (current, count), s)
  | SRaise => (Raise TransportError, s)
  | SItem doc rest =>
      let '(stop, s) := is_set count s in
      if stop then (Ok (current, count), s)
      else
        let current := current ++ [doc] in
        if BATCH_SIZE cfg <=? Z.of_nat (List.length current)
        then produce rest [] (S count) (put (Some current) s)
        else produce rest current (S count) s
  end.

Definition workers : nat := Z.to_nat (numProcess (cpu_count w)).

Fixpoint put_all (xs : list item) (s : Self) : Self :=
  match xs with
  | [] => s
  | x :: rest => put_all rest (put x s)
  end.

(** The [try] block with its [except] clause: the last chunk is put
    unless it is empty or the event is set; the handler names
    [self.stop_event]. *)
Definition guarded (data : stream) (current : chunk) (count : nat) (s : Self)
    : result unit * Self :=
  match produce data current count s with
  | (Ok (current, count), s0) =>
      match current with
      | [] => (Ok tt, s0)
      | _ :: _ =>
          let '(stop, s0) := is_set count s0 in
          if stop then (Ok tt, s0) else (Ok tt, put (Some current) s0)
      end
  | (Raise _, s0) => set_event "stop_event" s0
  end.

(** [chunkProducer]: the [finally] clause sends one [None] per consumer. *)
Definition chunkProducer (data : stream) (s : Self) : result unit * Self :=
  let '(body, s1) := guarded data [] O s in
  (body, put_all (repeat None workers) s1).

(** *** Quantities that the statements about the pipeline speak of *)


(** The chunks that the producer hands over when the stop event is clear
    at its start: the stream cut every [BATCH_SIZE] items, up to the first
    test of the event that finds it set or to the end of the stream. *)
Fixpoint batches (data : stream) (current : chunk) (count : nat)
    : list chunk :=
  match data with
  | SEnd =>
      match current with
      | [] => []
      | _ :: _ => if cancel w count then [] else [current]
      end
  | SRaise => []
  | SItem doc rest =>
      if cancel w count then []
      else
        let current := current ++ [doc] in
        if BATCH_SIZE cfg <=? Z.of_nat (List.length current)
        then current :: batches rest [] (S count)
        else batches rest current (S count)
  end.

Definition produced (data : stream) (s : Self) : list chunk :=
  if stopEvent s then [] else batches data [] O.

(** Number of write actions that the mapper builds for a chunk. *)
Definition mapped (s : Self) (c : chunk) : Z :=
  Z.of_nat (List.length (processChunk s c)).

Fixpoint mapped_total (s : Self) (chunks : list chunk) : Z :=
  match chunks with
  | [] => 0
  | c :: rest => mapped s c + mapped_total s rest
  end.

(** The bulk helper reports one outcome for each action it was given. *)
Definition sink_exact : Prop :=
  forall k actions success failed,
    es_bulk w k actions = Ok (success, failed) ->
    success + failed = Z.of_nat (List.length actions).

(** The fields of the object that only the producer, the consumers and
    [getData] write. *)
Definition same_shared (s s' : Self) : Prop :=
  gte s' = gte s /\ lte s' = lte s /\ chunkQueue s' = chunkQueue s /\
  stopEvent s' = stopEvent s /\ totalSuccess s' = totalSuccess s /\
  totalFailed s' = totalFailed s.

End Pipeline.

End SplitDex.

(* ================================================================== *)
(** ** The producer and the consumers as threads *)
(* ================================================================== *)

(** [action] starts one producer thread and [numProcess()] consumers that
    share the object.  Here each thread is a small machine whose steps
    are the accesses to what is shared (the queue, the stop event, the
    totals, the connection), and a run is a schedule: the list of the
    threads that step, in order.  The queue has the capacity given at its
    construction, [put] waits while it is full and [get] while it is
    empty: a thread that waits cannot step. *)

Module Threads.
Import SdModel SdUtility SdElastic SplitDex.

(** Where [processAndIndexChunk] returned from: after the bulk call of
    the given rank, with no action to write, or below the loop, its
    attempts used up. *)
Inductive outcome : Type :=
| Written (call : nat)
| Unmapped
| Exhausted.

(** The return of one call of [processAndIndexChunk]. *)
Record entry : Type := mkEntry {
  entry_chunk : chunk;
  entry_success : Z;
  entry_failed : Z;
  entry_outcome : outcome
}.

(** Where the producer is in [chunkProducer]. *)
Inductive pstate : Type :=
| PLoop (data : stream) (current : chunk)
    (* at [for item in data], with the chunk in progress *)
| PPut (current : chunk) (data : stream)
    (* at [self.chunkQueue.put(chunk)] in the loop *)
| PFlush (current : chunk)
    (* at [if chunk and not self.stopEvent.is_set()] *)
| PPutLast (current : chunk)
    (* at [self.chunkQueue.put(chunk)] after the loop *)
| PHandler
    (* in the [except] clause *)
| PFinally (remaining : nat) (raised : bool)
    (* at [self.chunkQueue.put(None)], so many times still to go *)
| PDone (raised : bool).

(** Where a consumer is in [chunkConsumer], and inside it in
    [processAndIndexChunk]. *)
Inductive cstate : Type :=
| CTest
    (* at [while not self.stopEvent.is_set()] *)
| CGet
    (* at [self.chunkQueue.get()] *)
| CGot (x : item)
    (* at [if chunk is None] *)
| CConnect (c : chunk) (retry_count : Z)
    (* at [self.ensureConnectionES()] *)
| CBulk (c : chunk) (actions : list action)
    (* at [self.es.bulkIndex(chunk, actions)] *)
| CHandler (c : chunk) (retry_count : Z)
    (* in the [except] clause of [processAndIndexChunk] *)
| CLoadSuccess (success failed : Z)
    (* [self.totalSuccess += success]: reading the total *)
| CStoreSuccess (seen success failed : Z)
    (* [self.totalSuccess += success]: writing the sum *)
| CLoadFailed (failed : Z)
| CStoreFailed (seen failed : Z)
| CTaskDone
    (* at [self.chunkQueue.task_done()] after a chunk *)
| CExit.

(** The shared object with the queue's count of items not yet
    acknowledged, the threads, and a record of the run: the chunks and
    the [None]s put so far, the returns of [processAndIndexChunk], and
    whether some addition to a total wrote over a change made since it
    read the total. *)
Record Pool : Type := mkPool {
  self : Self;
  unfinished : nat;
  producer : pstate;
  consumers : list cstate;
  handed : list chunk;
  sentinels : nat;
  results : list entry;
  raced : bool
}.

Definition with_self (p : Pool) (s : Self) : Pool :=
  mkPool s (unfinished p) (producer p) (consumers p) (handed p)
         (sentinels p) (results p) (raced p).

Definition with_producer (p : Pool) (st : pstate) : Pool :=
  mkPool (self p) (unfinished p) st (consumers p) (handed p)
         (sentinels p) (results p) (raced p).

Definition with_consumers (p : Pool) (l : list cstate) : Pool :=
  mkPool (self p) (unfinished p) (producer p) l (handed p)
         (sentinels p) (results p) (raced p).

Fixpoint replace_nth {A : Type} (i : nat) (x : A) (l : list A) : list A :=
  match l, i with
  | [], _ => []
  | _ :: rest, O => x :: rest
  | y :: rest, S i' => y :: replace_nth i' x rest
  end.

(** A thread of the schedule: the producer, the consumer of a given rank,
    or whoever sets the stop event from outside the two loops. *)
Inductive thread : Type :=
| Producer
| Consumer (i : nat)
| Canceller.

Section Machine.

Variable int : string -> option Z.
Variable w : World.
Variable cfg : SdConfig.

(** [Queue(maxsize=numProcess())]. *)
Definition capacity : nat := workers w.

(** [queue.put(x)]: [None] while the queue is full. *)
Definition queue_put (x : item) (p : Pool) : option Pool :=
  if (List.length (chunkQueue (self p)) <? capacity)%nat then
    Some (mkPool (with_queue (self p) (chunkQueue (self p) ++ [x]))
                 (S (unfinished p)) (producer p) (consumers p)
                 (match x with
                  | Some c => handed p ++ [c]
                  | None => handed p
                  end)
                 (match x with
                  | Some _ => sentinels p
                  | None => S (sentinels p)
                  end)
                 (results p) (raced p))
  else None.

(** [queue.get()]: [None] while the queue is empty. *)
Definition queue_get (p : Pool) : option (item * Pool) :=
  match chunkQueue (self p) with
  | [] => None
  | x :: q => Some (x, with_self p (with_queue (self p) q))
  end.

(** [queue.task_done()]. *)
Definition task_done (p : Pool) : Pool :=
  mkPool (self p) (pred (unfinished p)) (producer p) (consumers p)
         (handed p) (sentinels p) (results p) (raced p).

(** One step of the producer, if it can take one. *)
Definition producer_step (p : Pool) : option Pool :=
  match producer p with
  | PLoop SEnd current => Some (with_producer p (PFlush current))
  | PLoop SRaise _ => Some (with_producer p PHandler)
  | PLoop (SItem doc rest) current =>
      if stopEvent (self p) then Some (with_producer p (PFlush current))
      else
        let current := current ++ [doc] in
        if BATCH_SIZE cfg <=? Z.of_nat (List.length current)
        then Some (with_producer p (PPut current rest))
        else Some (with_producer p (PLoop rest current))
  | PPut current rest =>
      match queue_put (Some current) p with
      | Some p' => Some (with_producer p' (PLoop rest []))
      | None => None
      end
  | PFlush [] => Some (with_producer p (PFinally (workers w) false))
  | PFlush (doc :: current) =>
      if stopEvent (self p)
      then Some (with_producer p (PFinally (workers w) false))
      else Some (with_producer p (PPutLast (doc :: current)))
  | PPutLast current =>
      match queue_put (Some current) p with
      | Some p' => Some (with_producer p' (PFinally (workers w) false))
      | None => None
      end
  | PHandler =>
      match set_event "stop_event" (self p) with
      | (Ok _, s') =>
          Some (with_producer (with_self p s') (PFinally (workers w) false))
      | (Raise _, s') =>
          Some (with_producer (with_self p s') (PFinally (workers w) true))
      end
  | PFinally O raised => Some (with_producer p (PDone raised))
  | PFinally (S remaining) raised =>
      match queue_put None p with
      | Some p' => Some (with_producer p' (PFinally remaining raised))
      | None => None
      end
  | PDone _ => None
  end.

(** [processAndIndexChunk] returns: the consumer goes on to the two
    additions. *)
Definition returns (c : chunk) (success failed : Z) (how : outcome)
    (p : Pool) : cstate * Pool :=
  (CLoadSuccess success failed,
   mkPool (self p) (unfinished p) (producer p) (consumers p) (handed p)
          (sentinels p) (results p ++ [mkEntry c success failed how])
          (raced p)).

(** The test of [while retry_count < max_retries]. *)
Definition loop_test (c : chunk) (retry_count : Z) (p : Pool)
    : cstate * Pool :=
  if retry_count <? MAX_RETRY_CONNECTION cfg then (CConnect c retry_count, p)
  else returns c 0 (Z.of_nat (List.length c)) Exhausted p.

(** One step of a consumer in the given state, if it can take one. *)
Definition consumer_step (st : cstate) (p : Pool) : option (cstate * Pool) :=
  match st with
  | CTest => if stopEvent (self p) then Some (CExit, p) else Some (CGet, p)
  | CGet =>
      match queue_get p with
      | Some (x, p') => Some (CGot x, p')
      | None => None
      end
  | CGot None => Some (CExit, task_done p)
  | CGot (Some c) => Some (loop_test c 0 p)
  | CConnect c retry_count =>
      let '(connected, s1) := ensureConnectionES w (self p) in
      match connected with
      | Raise _ => Some (CHandler c retry_count, with_self p s1)
      | Ok _ =>
          match processChunk w cfg s1 c with
          | [] => Some (returns c 0 0 Unmapped (with_self p s1))
          | actions => Some (CBulk c actions, with_self p s1)
          end
      end
  | CBulk c actions =>
      let '(written, s1) := bulkIndex w (self p) actions in
      match written with
      | Ok (success, failed) =>
          Some (returns c success failed (Written (bulks (self p)))
                        (with_self p s1))
      | Raise _ => Some (CHandler c 0, with_self p s1)
      end
  | CHandler c retry_count =>
      let '(n, s1) := on_error cfg retry_count (self p) in
      Some (loop_test c n (with_self p s1))
  | CLoadSuccess success failed =>
      Some (CStoreSuccess (totalSuccess (self p)) success failed, p)
  | CStoreSuccess seen success failed =>
      let s := self p in
      Some (CLoadFailed failed,
            mkPool (mkSelf (es s) (gte s) (lte s) (chunkQueue s) (stopEvent s)
                           (seen + success) (totalFailed s)
                           (clients s) (bulks s) (sleeps s))
                   (unfinished p) (producer p) (consumers p) (handed p)
                   (sentinels p) (results p)
                   (raced p || negb (totalSuccess s =? seen)))
  | CLoadFailed failed =>
      Some (CStoreFailed (totalFailed (self p)) failed, p)
  | CStoreFailed seen failed =>
      let s := self p in
      Some (CTaskDone,
            mkPool (mkSelf (es s) (gte s) (lte s) (chunkQueue s) (stopEvent s)
                           (totalSuccess s) (seen + failed)
                           (clients s) (bulks s) (sleeps s))
                   (unfinished p) (producer p) (consumers p) (handed p)
                   (sentinels p) (results p)
                   (raced p || negb (totalFailed s =? seen)))
  | CTaskDone => Some (CTest, task_done p)
  | CExit => None
  end.

(** One step of a thread; [None] when it waits, has ended or does not
    exist. *)
Definition step (t : thread) (p : Pool) : option Pool :=
  match t with
  | Producer => producer_step p
  | Consumer i =>
      match nth_error (consumers p) i with
      | Some st =>
          match consumer_step st p with
          | Some (st', p') =>
              Some (with_consumers p' (replace_nth i st' (consumers p')))
          | None => None
          end
      | None => None
      end
  | Canceller => Some (with_self p (with_stop (self p) true))
  end.

(** A schedule, run: a thread that cannot step when its turn comes lets
    it pass. *)
Fixpoint run (schedule : list thread) (p : Pool) : Pool :=
  match schedule with
  | [] => p
  | t :: rest =>
      run rest (match step t p with Some p' => p' | None => p end)
  end.

(** The threads at their start, on the object as [action] has set it
    up. *)
Definition start (data : stream) (s : Self) : Pool :=
  mkPool s O (PLoop data []) (repeat CTest (workers w)) [] O [] false.

(** [action] up to the start of the threads: [None] when connecting or
    [getData] raises. *)
Definition action_start (data : stream) : option Pool :=
  match ensureConnectionES w init with
  | (Raise _, _) => None
  | (Ok _, s1) =>
      match getData int cfg s1 with
      | (Raise _, _) => None
      | (Ok _, s2) => Some (start data s2)
      end
  end.

Definition is_exit (st : cstate) : bool :=
  match st with CExit => true | _ => false end.

(** What [action] returns once [producer.join()], [chunkQueue.join()]
    and the end of the executor's block let it through: the producer has
    ended, every item is acknowledged, every consumer has left. *)
Definition finished (p : Pool) : option (Z * Z) :=
  match producer p with
  | PDone _ =>
      if (unfinished p =? 0)%nat && forallb is_exit (consumers p)
      then Some (totalSuccess (self p), totalFailed (self p))
      else None
  | _ => None
  end.

(** *** What the statements about runs speak of *)

Definition exhausted (e : entry) : bool :=
  match entry_outcome e with Exhausted => true | _ => false end.

(** What a return adds to the two totals together when the bulk helper
    reports one outcome per action: the whole chunk when the attempts
    were used up, the actions built for it otherwise. *)
Definition credit (s : Self) (e : entry) : Z :=
  if exhausted e then Z.of_nat (List.length (entry_chunk e))
  else mapped w cfg s (entry_chunk e).

Fixpoint total_credit (s : Self) (l : list entry) : Z :=
  match l with
  | [] => 0
  | e :: rest => credit s e + total_credit s rest
  end.

(** The counts of a return are those of its exit. *)
Definition entry_ok (s : Self) (e : entry) : Prop :=
  match entry_outcome e with
  | Written call =>
      es_bulk w call (processChunk w cfg s (entry_chunk e))
      = Ok (entry_success e, entry_failed e)
  | Unmapped =>
      processChunk w cfg s (entry_chunk e) = [] /\
      entry_success e = 0 /\ entry_failed e = 0
  | Exhausted =>
      entry_success e = 0 /\
      entry_failed e = Z.of_nat (List.length (entry_chunk e))
  end.

(** Sums over the consumers: the counts that wait to be added, the
    chunks being processed, the items taken and not yet acknowledged. *)
Definition pending_success (st : cstate) : Z :=
  match st with
  | CLoadSuccess success _ | CStoreSuccess _ success _ => success
  | _ => 0
  end.

Definition pending_failed (st : cstate) : Z :=
  match st with
  | CLoadSuccess _ failed | CStoreSuccess _ _ failed
  | CLoadFailed failed | CStoreFailed _ failed => failed
  | _ => 0
  end.

Definition held (st : cstate) : list chunk :=
  match st with
  | CGot (Some c) | CConnect c _ | CBulk c _ | CHandler c _ => [c]
  | _ => []
  end.

Definition holding (st : cstate) : nat :=
  match st with
  | CTest | CGet | CExit => 0
  | _ => 1
  end.

Fixpoint sum_Z (l : list Z) : Z :=
  match l with
  | [] => 0
  | x :: rest => x + sum_Z rest
  end.

Fixpoint sum_nat (l : list nat) : nat :=
  match l with
  | [] => O
  | x :: rest => (x + sum_nat rest)%nat
  end.

Definition queue_chunks (q : list item) : list chunk :=
  flat_map (fun x => match x with Some c => [c] | None => [] end) q.

(** The actions that a consumer carries to the bulk call are those of
    its chunk. *)
Definition carries (s : Self) (st : cstate) : Prop :=
  match st with
  | CBulk c actions => actions = processChunk w cfg s c
  | _ => True
  end.

(** What holds of the totals, the queue and the record of the run in
    every state that a schedule reaches from [start data s0]. *)
Definition accounted (s0 : Self) (p : Pool) : Prop :=
  (raced p = false ->
   totalSuccess (self p) + sum_Z (map pending_success (consumers p))
   = totalSuccess s0 + sum_Z (map entry_success (results p)) /\
   totalFailed (self p) + sum_Z (map pending_failed (consumers p))
   = totalFailed s0 + sum_Z (map entry_failed (results p))) /\
  Permutation (handed p)
    (queue_chunks (chunkQueue (self p)) ++ flat_map held (consumers p)
     ++ map entry_chunk (results p)) /\
  unfinished p
  = (List.length (chunkQueue (self p))
     + sum_nat (map holding (consumers p)))%nat /\
  Forall (entry_ok s0) (results p) /\
  Forall (carries s0) (consumers p) /\
  gte (self p) = gte s0 /\ lte (self p) = lte s0.







(** What holds of the chunks handed over, for a batch size of one at
    least: every chunk has between one and [BATCH_SIZE] documents and
    together they begin the stream; while the producer reads, the chunks
    are full and with the chunk in progress and what is still to read
    they are the stream; once it has left its loop, the chunks are full,
    or the stream has ended without an error and they are all of it. *)
Definition full (c : chunk) : Prop :=
  Z.of_nat (List.length c) = BATCH_SIZE cfg.



End Machine.

End Threads.

(* ================================================================== *)
(** ** Sample inputs *)
(* ================================================================== *)

Module Samples.
Import SdModel SdUtility SdElastic SplitDex.

(** A hit with a timestamp under [ts], and one without that field. *)
Definition hit (id : string) (ts : Z) : pyval :=
  PDict [("_id", PStr id); ("_source", PDict [("ts", PInt ts)])].

Definition bare (id : string) : pyval :=
  PDict [("_id", PStr id); ("_source", PDict [("other", PInt 1)])].

Definition jan_1_2024 : Z := 1704067200.
Definition jan_31_2024 : Z := 1706659200.
Definition mar_1_2024 : Z := 1709251200.

Definition cfg_all (batch retries : Z) : SdConfig :=
  mkConfig "logs" "ts" batch retries "YYYYmm" "no" None None None "asc".

Definition cfg_range (iso : string) : SdConfig :=
  mkConfig "logs" "ts" 2 3 "YYYYmm" "yes"
           (Some "2024-01-01") (Some "2024-01-31") (Some iso) "asc".


(** Four CPUs and a reachable server whose bulk helper accepts everything. *)
Definition world_ok : World :=
  mkWorld 4 (fun _ => true)
          (fun _ actions => Ok (Z.of_nat (List.length actions), 0))
          (fun _ => false) 0.

(** The same, with a bulk helper that fails from its second call on. *)
Definition world_once : World :=
  mkWorld 4 (fun _ => true)
          (fun k actions =>
             if Nat.eqb k 0 then Ok (Z.of_nat (List.length actions), 0)
             else Raise TransportError)
          (fun _ => false) 0.

(** A reachable server whose bulk helper always fails. *)
Definition world_broken : World :=
  mkWorld 4 (fun _ => true) (fun _ _ => Raise TransportError)
          (fun _ => false) 0.

(** Two chunks of one document with a date and one without. *)
Definition two_mixed_chunks : list pyval :=
  [hit "a" jan_1_2024; bare "b"; hit "c" jan_1_2024; bare "d"].

Definition five_hits : list pyval :=
  [hit "a" 1; hit "b" 2; hit "c" 3; hit "d" 4; hit "e" 5].

(** A schedule on which the producer runs as far as it can, the first
    consumer then processes what it finds, the producer ends and the two
    other consumers take their signal. *)
Definition in_turn : list Threads.thread :=
  repeat Threads.Producer 12 ++ repeat (Threads.Consumer 0) 40
  ++ repeat Threads.Producer 6 ++ repeat (Threads.Consumer 1) 4
  ++ repeat (Threads.Consumer 2) 4.

(** A schedule on which the stop event is set from outside after the
    producer has read three documents and before the consumers have made
    their first test. *)
Definition cancelled_early : list Threads.thread :=
  repeat Threads.Producer 4 ++ [Threads.Canceller]
  ++ repeat Threads.Producer 10
  ++ [Threads.Consumer 0; Threads.Consumer 1; Threads.Consumer 2].

(** The state that [cancelled_early] leads to, with a batch size of two,
    three workers and five documents. *)
Definition waiting_pool : Threads.Pool :=
  Eval vm_compute in
    Threads.run world_ok (cfg_all 2 3) cancelled_early
      (Threads.start world_ok (SplitDex.stream_of five_hits SplitDex.SEnd)
         SplitDex.init).



Definition engine_ini (batch retries fmt : string) : SdValidator.ini :=
  [("engine",
    [("batch_size", batch); ("max_retry_connection", retries);
     ("format_date", fmt)])].

Definition fresh_validator (c : SdValidator.ini) : SdValidator.validator :=
  SdValidator.mkValidator c None None.

End Samples.

(* ================================================================== *)
(** ** The chunk producer *)
(* ================================================================== *)

Module ProducerFacts.
Import SdModel SdUtility SdElastic SplitDex.

Lemma producer_frame_refl s : producer_frame s s.
Proof. repeat split. Qed.

Lemma producer_frame_trans s1 s2 s3 :
  producer_frame s1 s2 -> producer_frame s2 s3 -> producer_frame s1 s3.
Proof.
  unfold producer_frame. intros H1 H2.
  decompose [and] H1. decompose [and] H2. repeat split; congruence.
Qed.

Lemma workers_pos w : (1 <= workers w)%nat.
Proof. unfold workers, numProcess. lia. Qed.

Lemma put_all_queue xs : forall s, chunkQueue (put_all xs s) = chunkQueue s ++ xs.
Proof.
  induction xs as [|x xs IH]; intros s; simpl.
  - now rewrite app_nil_r.
  - rewrite IH. simpl. now rewrite <- app_assoc.
Qed.

Lemma put_all_stop xs : forall s, stopEvent (put_all xs s) = stopEvent s.
Proof. induction xs as [|x xs IH]; intros s; simpl; [|rewrite IH]; reflexivity. Qed.

Lemma put_all_frame xs : forall s, producer_frame s (put_all xs s).
Proof.
  induction xs as [|x xs IH]; intros s; simpl.
  - apply producer_frame_refl.
  - eapply producer_frame_trans; [|apply IH]. repeat split.
Qed.

Section Producer.

Variable w : World.
Variable cfg : SdConfig.

Lemma is_set_stopped k s :
  stopEvent s = true -> is_set w k s = (true, with_stop s true).
Proof. intros Hs. unfold is_set. now rewrite Hs. Qed.

Lemma is_set_clear k s :
  stopEvent s = false ->
  is_set w k s = if cancel w k then (true, with_stop s true) else (false, s).
Proof. intros Hs. unfold is_set. now rewrite Hs. Qed.

(** With the event set at the start the producer puts no chunk. *)
Lemma guarded_stopped data : forall current count s,
  stopEvent s = true ->
  chunkQueue (snd (guarded w cfg data current count s)) = chunkQueue s /\
  stopEvent (snd (guarded w cfg data current count s)) = true.
Proof.
  destruct data as [| |doc rest]; intros current count s Hs;
    unfold guarded; simpl.
  - destruct current; simpl; [auto|].
    rewrite is_set_stopped by assumption. simpl. auto.
  - auto.
  - rewrite is_set_stopped by assumption.
    destruct current; simpl; [auto|].
    try (rewrite is_set_stopped by reflexivity). simpl. auto.
Qed.

(** With the event clear at the start the producer puts [batches]. *)
Lemma guarded_queue data : forall current count s,
  stopEvent s = false ->
  chunkQueue (snd (guarded w cfg data current count s))
  = chunkQueue s ++ map Some (batches w cfg data current count).
Proof.
  induction data as [| |doc rest IH]; intros current count s Hs.
  - unfold guarded; simpl. destruct current as [|d current]; simpl.
    + now rewrite app_nil_r.
    + rewrite is_set_clear by assumption.
      destruct (cancel w count); simpl; [now rewrite app_nil_r|reflexivity].
  - unfold guarded; simpl. now rewrite app_nil_r.
  - unfold guarded. simpl. rewrite is_set_clear by assumption.
    destruct (cancel w count) eqn:Hc; simpl.
    + destruct current; simpl; [now rewrite app_nil_r|].
      try (rewrite is_set_stopped by reflexivity). simpl. now rewrite app_nil_r.
    + destruct (BATCH_SIZE cfg <=? Z.of_nat (List.length (current ++ [doc]))).
      * specialize (IH [] (S count) (put (Some (current ++ [doc])) s) Hs).
        unfold guarded in IH. rewrite IH. simpl.
        now rewrite <- app_assoc.
      * specialize (IH (current ++ [doc]) (S count) s Hs).
        unfold guarded in IH. exact IH.
Qed.

Lemma is_set_frame k s : producer_frame s (snd (is_set w k s)).
Proof. unfold is_set. destruct (stopEvent s || cancel w k); repeat split. Qed.

Lemma guarded_frame data : forall current count s,
  producer_frame s (snd (guarded w cfg data current count s)).
Proof.
  induction data as [| |doc rest IH]; intros current count s.
  - unfold guarded; simpl. destruct current; simpl.
    + apply producer_frame_refl.
    + pose proof (is_set_frame count s) as Hf.
      destruct (is_set w count s) as [[|] s0]; simpl in *;
        [exact Hf|]. eapply producer_frame_trans; [exact Hf|repeat split].
  - unfold guarded; simpl. apply producer_frame_refl.
  - unfold guarded. simpl.
    pose proof (is_set_frame count s) as Hf.
    destruct (is_set w count s) as [[|] s0]; simpl in *.
    + destruct current; simpl; [exact Hf|].
      pose proof (is_set_frame count s0) as Hf0.
      destruct (is_set w count s0) as [[|] s1]; simpl in *.
      * eapply producer_frame_trans; eassumption.
      * eapply producer_frame_trans; [exact Hf|].
        eapply producer_frame_trans; [exact Hf0|repeat split].
    + eapply producer_frame_trans; [exact Hf|].
      destruct (BATCH_SIZE cfg <=? Z.of_nat (List.length (current ++ [doc]))).
      * eapply producer_frame_trans;
          [|apply (IH [] (S count) (put (Some (current ++ [doc])) s0))].
        repeat split.
      * apply (IH (current ++ [doc]) (S count) s0).
Qed.

(** The queue after [chunkProducer]: what was there, the chunks, one
    [None] per consumer. *)
Lemma chunkProducer_queue data s :
  chunkQueue (snd (chunkProducer w cfg data s))
  = chunkQueue s ++ map Some (produced w cfg data s)
    ++ repeat None (workers w).
Proof.
  unfold chunkProducer, produced.
  destruct (guarded w cfg data [] 0 s) as [body s1] eqn:Hg. simpl.
  rewrite put_all_queue.
  destruct (stopEvent s) eqn:Hs.
  - destruct (guarded_stopped data [] O s Hs) as [Hq _].
    rewrite Hg in Hq. simpl in Hq. now rewrite Hq.
  - pose proof (guarded_queue data [] O s Hs) as Hq.
    rewrite Hg in Hq. simpl in Hq. rewrite Hq. now rewrite <- app_assoc.
Qed.

Lemma chunkProducer_frame data s :
  producer_frame s (snd (chunkProducer w cfg data s)).
Proof.
  unfold chunkProducer.
  pose proof (guarded_frame data [] O s) as Hf.
  destruct (guarded w cfg data [] 0 s) as [body s1]. simpl in *.
  eapply producer_frame_trans; [exact Hf|apply put_all_frame].
Qed.

(** A stream that fails: the handler's [set] raises and the event stays
    clear. *)
Lemma guarded_failing docs : forall current count s,
  stopEvent s = false ->
  (forall k, cancel w k = false) ->
  fst (guarded w cfg (stream_of docs SRaise) current count s)
  = Raise AttributeError /\
  stopEvent (snd (guarded w cfg (stream_of docs SRaise) current count s))
  = false.
Proof.
  induction docs as [|doc docs IH]; intros current count s Hs Hc.
  - unfold guarded; simpl. auto.
  - unfold guarded. simpl. rewrite is_set_clear by assumption.
    rewrite Hc.
    destruct (BATCH_SIZE cfg <=? Z.of_nat (List.length (current ++ [doc]))).
    + apply (IH [] (S count) (put (Some (current ++ [doc])) s)); auto.
    + apply (IH (current ++ [doc]) (S count) s); auto.
Qed.

(** Without cancellation the chunks are full ones followed by at most one
    shorter chunk, and together they are the stream. *)
Lemma batches_shape docs : forall current count,
  (forall k, cancel w k = false) ->
  Z.of_nat (List.length current) < BATCH_SIZE cfg ->
  exists full r,
    batches w cfg (stream_of docs SEnd) current count
    = full ++ match r with [] => [] | _ :: _ => [r] end /\
    Forall (fun c => Z.of_nat (List.length c) = BATCH_SIZE cfg) full /\
    Z.of_nat (List.length r) < BATCH_SIZE cfg /\
    List.concat full ++ r = current ++ docs.
Proof.
  induction docs as [|doc docs IH]; intros current count Hc Hlen.
  - exists [], current. simpl. repeat split; auto.
    + destruct current; [reflexivity|]. now rewrite Hc.
    + now rewrite app_nil_r.
  - simpl. rewrite Hc.
    destruct (BATCH_SIZE cfg <=? Z.of_nat (List.length (current ++ [doc])))
      eqn:Hfull.
    + apply Z.leb_le in Hfull.
      assert (Hexact : Z.of_nat (List.length (current ++ [doc]))
                       = BATCH_SIZE cfg).
      { rewrite length_app in *. simpl in *. lia. }
      destruct (IH [] (S count) Hc) as (full & r & Hb & Hall & Hr & Hcat).
      { simpl. lia. }
      exists ((current ++ [doc]) :: full), r. repeat split; auto.
      * rewrite Hb. reflexivity.
      * simpl. rewrite <- app_assoc. rewrite Hcat. simpl.
        now rewrite <- app_assoc.
    + apply Z.leb_gt in Hfull.
      destruct (IH (current ++ [doc]) (S count) Hc Hfull)
        as (full & r & Hb & Hall & Hr & Hcat).
      exists full, r. repeat split; auto.
      rewrite Hcat. now rewrite <- app_assoc.
Qed.

End Producer.

Lemma length_concat_uniform {A : Type} (n : Z) (l : list (list A)) :
  Forall (fun c => Z.of_nat (List.length c) = n) l ->
  Z.of_nat (List.length (List.concat l)) = n * Z.of_nat (List.length l).
Proof.
  induction 1 as [|c l Hc Hl IH]; simpl.
  - lia.
  - rewrite length_app. lia.
Qed.

(** C8. When reading the source raises, with the stop event clear and no
    other thread setting it, the producer ends with the [AttributeError]
    of its handler and the stop event is still clear. *)
Theorem producer_error_flag (w : World) (cfg : SdConfig) (docs : list pyval)
    (s : Self) :
  stopEvent s = false ->
  (forall k, cancel w k = false) ->
  fst (chunkProducer w cfg (stream_of docs SRaise) s) = Raise AttributeError /\
  stopEvent (snd (chunkProducer w cfg (stream_of docs SRaise) s)) = false.
Proof.
  intros Hs Hc. unfold chunkProducer.
  destruct (guarded_failing w cfg docs [] O s Hs Hc) as [Hr Hstop].
  destruct (guarded w cfg (stream_of docs SRaise) [] 0 s) as [body s1].
  simpl in *. rewrite put_all_stop. auto.
Qed.

Lemma producer_error_flag_witness :
  fst (chunkProducer Samples.world_ok (Samples.cfg_all 2 3)
         (stream_of [Samples.hit "a" 1; Samples.hit "b" 2; Samples.hit "c" 3]
                    SRaise) init)
  = Raise AttributeError /\
  stopEvent
    (snd (chunkProducer Samples.world_ok (Samples.cfg_all 2 3)
            (stream_of [Samples.hit "a" 1; Samples.hit "b" 2;
                        Samples.hit "c" 3] SRaise) init))
  = false.
Proof.
  apply (producer_error_flag Samples.world_ok (Samples.cfg_all 2 3)
           [Samples.hit "a" 1; Samples.hit "b" 2; Samples.hit "c" 3] init).
  - reflexivity.
  - intros k. reflexivity.
Defined.

(** C9. For a stream of [M] documents that ends normally, a batch size
    [B >= 1] and no cancellation, the producer enqueues, in stream order,
    [ceil(M/B)] chunks whose concatenation is the stream; every chunk but
    the last has [B] documents and the last has [M mod B], or [B] when [B]
    divides [M]. *)
Theorem producer_chunk_count (w : World) (cfg : SdConfig)
    (docs : list pyval) (s : Self) :
  1 <= BATCH_SIZE cfg ->
  stopEvent s = false ->
  (forall k, cancel w k = false) ->
  let M := Z.of_nat (List.length docs) in
  let B := BATCH_SIZE cfg in
  exists chunks : list chunk,
    chunkQueue (snd (chunkProducer w cfg (stream_of docs SEnd) s))
    = chunkQueue s ++ map Some chunks ++ repeat None (workers w) /\
    List.concat chunks = docs /\
    Z.of_nat (List.length chunks) = (M + B - 1) / B /\
    (forall i, (S i < List.length chunks)%nat ->
               Z.of_nat (List.length (nth i chunks [])) = B) /\
    (docs <> [] ->
     Z.of_nat (List.length (last chunks []))
     = if M mod B =? 0 then B else M mod B).
Proof.
  intros HB Hs Hc M B.
  destruct (batches_shape w cfg docs [] O Hc) as (full & r & Hb & Hall & Hr & Hcat).
  { simpl. lia. }
  exists (batches w cfg (stream_of docs SEnd) [] O).
  assert (HM : M = B * Z.of_nat (List.length full) + Z.of_nat (List.length r)).
  { unfold M. simpl in Hcat. rewrite <- Hcat, length_app.
    rewrite Nat2Z.inj_add, (length_concat_uniform B); auto. }
  fold B in Hr, Hall.
  split; [|split; [|split; [|split]]].
  - rewrite chunkProducer_queue. unfold produced. now rewrite Hs.
  - rewrite Hb, concat_app. simpl in Hcat. rewrite <- Hcat. f_equal.
    destruct r; simpl; [reflexivity|now rewrite app_nil_r].
  - rewrite Hb, length_app. destruct r as [|d r]; simpl List.length.
    + simpl in HM.
      apply (Z.div_unique _ _ _ (B - 1)); lia.
    + apply (Z.div_unique _ _ _ (Z.of_nat (List.length (d :: r)) - 1));
        simpl List.length in *; lia.
  - intros i Hi. rewrite Hb in *.
    assert (Hi' : (i < List.length full)%nat).
    { rewrite length_app in Hi. destruct r; simpl in Hi; lia. }
    rewrite app_nth1 by exact Hi'.
    rewrite Forall_forall in Hall. apply Hall. now apply nth_In.
  - intros Hdocs. rewrite Hb.
    destruct r as [|d r].
    + simpl in HM. rewrite app_nil_r.
      assert (Hmod : M mod B = 0).
      { symmetry. apply (Z.mod_unique _ _ (Z.of_nat (List.length full))); lia. }
      rewrite Hmod. simpl.
      destruct full as [|c full].
      * simpl in Hcat. congruence.
      * rewrite Forall_forall in Hall. apply Hall.
        destruct (exists_last (l := c :: full)) as (l' & x & Hl); [discriminate|].
        rewrite Hl, last_last, <- Hl. rewrite Hl. apply in_or_app. right. now left.
    + rewrite last_last.
      assert (Hmod : M mod B = Z.of_nat (List.length (d :: r))).
      { symmetry. apply (Z.mod_unique _ _ (Z.of_nat (List.length full))); lia. }
      rewrite Hmod.
      destruct (Z.of_nat (List.length (d :: r)) =? 0) eqn:Hz; [|reflexivity].
      apply Z.eqb_eq in Hz. simpl in Hz. lia.
Qed.

Lemma producer_chunk_count_witness :
  exists chunks : list chunk,
    chunkQueue
      (snd (chunkProducer Samples.world_ok (Samples.cfg_all 2 3)
              (stream_of [Samples.hit "a" 1; Samples.hit "b" 2;
                          Samples.hit "c" 3] SEnd) init))
    = map Some chunks ++ repeat None 3 /\
    List.concat chunks
    = [Samples.hit "a" 1; Samples.hit "b" 2; Samples.hit "c" 3] /\
    Z.of_nat (List.length chunks) = 2 /\
    Z.of_nat (List.length (last chunks [])) = 1.
Proof.
  destruct (producer_chunk_count Samples.world_ok (Samples.cfg_all 2 3)
              [Samples.hit "a" 1; Samples.hit "b" 2; Samples.hit "c" 3] init)
    as (chunks & Hq & Hcat & Hlen & _ & Hlast).
  - simpl. lia.
  - reflexivity.
  - intros k. reflexivity.
  - exists chunks. repeat split.
    + exact Hq.
    + exact Hcat.
    + exact Hlen.
    + apply Hlast. discriminate.
Defined.

End ProducerFacts.

(* ================================================================== *)
(** ** Connection, mapping and retries *)
(* ================================================================== *)

Module ChunkFacts.
Import SdModel SdUtility SdElastic SplitDex.

Section Chunk.

Variable w : World.
Variable cfg : SdConfig.

(** *** The connection *)

Lemma connect_shared s : same_shared s (snd (connect w s)).
Proof.
  unfold connect. destruct (es s); simpl; [|repeat split].
  destruct (es_ping w (clients s)); repeat split.
Qed.

Lemma connect_trace s :
  bulks (snd (connect w s)) = bulks s /\
  sleeps (snd (connect w s)) = sleeps s.
Proof.
  unfold connect. destruct (es s); simpl; [|auto].
  destruct (es_ping w (clients s)); auto.
Qed.

Lemma connect_ok s s' :
  connect w s = (Ok tt, s') -> es s' <> None.
Proof.
  unfold connect. destruct (es s); [|discriminate].
  destruct (es_ping w (clients s)); [|discriminate].
  intros H. inversion H. discriminate.
Qed.

(** With a connection object in place, [ensureConnectionES] is a call of
    [connect]: the test of [_client] always asks for it. *)
Lemma ensureConnectionES_existing s e :
  es s = Some e -> ensureConnectionES w s = connect w s.
Proof. intros H. unfold ensureConnectionES. rewrite H. reflexivity. Qed.

Lemma ensureConnectionES_shared s :
  same_shared s (snd (ensureConnectionES w s)).
Proof.
  unfold ensureConnectionES. destruct (es s) eqn:He.
  - simpl. apply connect_shared.
  - pose proof (connect_shared (with_es s (Some (mkConnect None)))) as H1.
    destruct (connect w (with_es s (Some (mkConnect None)))) as [[[]|e] s1];
      simpl in *; [|exact H1].
    pose proof (connect_shared s1) as H2.
    destruct (connect w s1) as [r2 s2]. simpl in *.
    unfold same_shared in *. simpl in *.
    decompose [and] H1. decompose [and] H2.
    repeat split; congruence.
Qed.

Lemma ensureConnectionES_trace s :
  bulks (snd (ensureConnectionES w s)) = bulks s /\
  sleeps (snd (ensureConnectionES w s)) = sleeps s.
Proof.
  unfold ensureConnectionES. destruct (es s) eqn:He.
  - simpl. apply connect_trace.
  - pose proof (connect_trace (with_es s (Some (mkConnect None)))) as H1.
    destruct (connect w (with_es s (Some (mkConnect None)))) as [[[]|e] s1];
      simpl in *; [|exact H1].
    pose proof (connect_trace s1) as H2.
    destruct (connect w s1) as [r2 s2]. simpl in *.
    destruct H1, H2. split; congruence.
Qed.

Lemma ensureConnectionES_ok s s' :
  ensureConnectionES w s = (Ok tt, s') -> es s' <> None.
Proof.
  unfold ensureConnectionES. destruct (es s) eqn:He.
  - simpl. apply connect_ok.
  - destruct (connect w (with_es s (Some (mkConnect None)))) as [[[]|e] s1];
      simpl; [|discriminate].
    apply connect_ok.
Qed.

(** A server that answers every ping is reached whatever the state. *)
Lemma ensureConnectionES_reachable s :
  (forall k, es_ping w k = true) ->
  fst (ensureConnectionES w s) = Ok tt.
Proof.
  intros Hp. unfold ensureConnectionES, connect.
  destruct (es s) eqn:He; simpl.
  - rewrite He, Hp. reflexivity.
  - rewrite !Hp. reflexivity.
Qed.

(** *** The mapper *)

Lemma mappingData_bounds s s' data :
  gte s' = gte s -> lte s' = lte s ->
  mappingData w cfg s' data = mappingData w cfg s data.
Proof. intros Hg Hl. unfold mappingData. now rewrite Hg, Hl. Qed.

Lemma processChunk_bounds s s' c :
  gte s' = gte s -> lte s' = lte s ->
  processChunk w cfg s' c = processChunk w cfg s c.
Proof.
  intros Hg Hl. induction c as [|data c IH]; simpl; [reflexivity|].
  unfold map_item. rewrite (mappingData_bounds s s' data Hg Hl).
  now rewrite IH.
Qed.

Lemma processChunk_app s c1 c2 :
  processChunk w cfg s (c1 ++ c2)
  = processChunk w cfg s c1 ++ processChunk w cfg s c2.
Proof.
  induction c1 as [|data c1 IH]; simpl; [reflexivity|].
  destruct (map_item w cfg s data); simpl; now rewrite IH.
Qed.


(** *** The retry loop *)

Lemma on_error_shared n s : same_shared s (snd (on_error cfg n s)).
Proof.
  unfold on_error. destruct (n + 1 <? MAX_RETRY_CONNECTION cfg); repeat split.
Qed.

Lemma bulkIndex_shared s actions :
  same_shared s (snd (bulkIndex w s actions)).
Proof. unfold bulkIndex. destruct (es s); repeat split. Qed.




(** A reachable server with a bulk helper that always raises: each round
    of the loop resets the counter after connecting, fails in the bulk
    call, counts one attempt and sleeps [2 ** 1]. *)
Lemma retry_loop_spins fuel : forall c n s,
  2 <= MAX_RETRY_CONNECTION cfg ->
  (forall k, es_ping w k = true) ->
  (forall k actions, is_ok (es_bulk w k actions) = false) ->
  processChunk w cfg s c <> [] ->
  n < MAX_RETRY_CONNECTION cfg ->
  fst (retry_loop w cfg fuel c n s) = None /\
  sleeps (snd (retry_loop w cfg fuel c n s)) = sleeps s ++ repeat 2 fuel /\
  bulks (snd (retry_loop w cfg fuel c n s)) = (bulks s + fuel)%nat.
Proof.
  induction fuel as [|fuel IH]; intros c n s Hmax Hping Hbulk Hact Hn; simpl.
  - rewrite app_nil_r. repeat split. lia.
  - apply Z.ltb_lt in Hn. rewrite Hn.
    pose proof (ensureConnectionES_reachable s Hping) as Hok.
    pose proof (ensureConnectionES_shared s) as Hsh.
    pose proof (ensureConnectionES_trace s) as Htr.
    destruct (ensureConnectionES w s) as [r s1] eqn:Hens.
    simpl in Hok, Hsh, Htr. subst r.
    pose proof (ensureConnectionES_ok s s1 Hens) as Hes.
    assert (Hpc : processChunk w cfg s1 c = processChunk w cfg s c).
    { apply processChunk_bounds; apply Hsh. }
    rewrite Hpc.
    destruct (processChunk w cfg s c) as [|a actions] eqn:Hproc;
      [congruence|].
    unfold bulkIndex. destruct (es s1) as [e|]; [|congruence].
    pose proof (Hbulk (bulks s1) (a :: actions)) as Hraise.
    destruct (es_bulk w (bulks s1) (a :: actions)) as [counts|err];
      [discriminate|].
    unfold on_error.
    assert (H1 : (0 + 1 <? MAX_RETRY_CONNECTION cfg) = true)
      by (apply Z.ltb_lt; lia).
    rewrite H1.
    destruct (IH c (0 + 1) (sleep (with_es (count_bulk s1) None) (2 ^ (0 + 1))))
      as (Hr & Hsl & Hbk); auto.
    + rewrite (processChunk_bounds s
                 (sleep (with_es (count_bulk s1) None) (2 ^ (0 + 1))) c)
        by (simpl; apply Hsh).
      rewrite Hproc. discriminate.
    + lia.
    + repeat split.
      * exact Hr.
      * rewrite Hsl. simpl. destruct Htr as [_ Hsleeps]. rewrite Hsleeps.
        rewrite <- app_assoc. reflexivity.
      * rewrite Hbk. simpl. destruct Htr as [Hb _]. rewrite Hb. lia.
Qed.

End Chunk.

(** C2. A chunk whose bulk write always raises, on a server that answers
    every ping and with at least two attempts configured, is never given
    up: whatever the number of rounds allowed, [processAndIndexChunk] is
    still in its loop after them, having called the bulk helper once and
    slept [2] seconds in each round. *)
Theorem failing_bulk_never_gives_up (w : World) (cfg : SdConfig) (c : chunk)
    (s : Self) (fuel : nat) :
  2 <= MAX_RETRY_CONNECTION cfg ->
  (forall k, es_ping w k = true) ->
  (forall k actions, is_ok (es_bulk w k actions) = false) ->
  processChunk w cfg s c <> [] ->
  fst (processAndIndexChunk w cfg fuel c s) = None /\
  sleeps (snd (processAndIndexChunk w cfg fuel c s))
  = sleeps s ++ repeat 2 fuel /\
  bulks (snd (processAndIndexChunk w cfg fuel c s)) = (bulks s + fuel)%nat.
Proof.
  intros Hmax Hping Hbulk Hact. unfold processAndIndexChunk.
  apply retry_loop_spins; auto. lia.
Qed.

Lemma failing_bulk_never_gives_up_witness :
  fst (processAndIndexChunk Samples.world_broken (Samples.cfg_all 2 3) 10
         [Samples.hit "a" Samples.jan_1_2024] init) = None /\
  sleeps (snd (processAndIndexChunk Samples.world_broken (Samples.cfg_all 2 3)
                 10 [Samples.hit "a" Samples.jan_1_2024] init))
  = [2; 2; 2; 2; 2; 2; 2; 2; 2; 2] /\
  bulks (snd (processAndIndexChunk Samples.world_broken (Samples.cfg_all 2 3)
                10 [Samples.hit "a" Samples.jan_1_2024] init)) = 10%nat.
Proof.
  apply (failing_bulk_never_gives_up Samples.world_broken
           (Samples.cfg_all 2 3) [Samples.hit "a" Samples.jan_1_2024] init 10).
  - simpl. lia.
  - intros k. reflexivity.
  - intros k actions. reflexivity.
  - vm_compute. discriminate.
Defined.

(** C3. When the connection is established and the mapper builds no
    action for a chunk, [processAndIndexChunk] returns [(0, 0)], whatever
    the length of the chunk, and the bulk helper is not called. *)
Theorem unmapped_chunk_counts_nothing (w : World) (cfg : SdConfig)
    (c : chunk) (s s1 : Self) (fuel : nat) :
  0 < MAX_RETRY_CONNECTION cfg ->
  ensureConnectionES w s = (Ok tt, s1) ->
  processChunk w cfg s c = [] ->
  processAndIndexChunk w cfg (S fuel) c s = (Some (0, 0), s1) /\
  bulks s1 = bulks s.
Proof.
  intros Hmax Hens Hact. unfold processAndIndexChunk. simpl.
  apply Z.ltb_lt in Hmax. rewrite Hmax, Hens.
  pose proof (ensureConnectionES_shared w s) as Hsh.
  pose proof (ensureConnectionES_trace w s) as Htr.
  rewrite Hens in Hsh, Htr. simpl in Hsh, Htr.
  rewrite (processChunk_bounds w cfg s s1 c); [|apply Hsh|apply Hsh].
  rewrite Hact. split; [reflexivity|apply Htr].
Qed.

Lemma unmapped_chunk_counts_nothing_witness :
  processAndIndexChunk Samples.world_ok (Samples.cfg_all 2 3) 1
    [Samples.bare "a"; Samples.bare "b"] init
  = (Some (0, 0), snd (ensureConnectionES Samples.world_ok init)) /\
  bulks (snd (ensureConnectionES Samples.world_ok init)) = bulks init.
Proof.
  apply (unmapped_chunk_counts_nothing Samples.world_ok (Samples.cfg_all 2 3)
           [Samples.bare "a"; Samples.bare "b"] init
           (snd (ensureConnectionES Samples.world_ok init)) 0).
  - simpl. lia.
  - reflexivity.
  - reflexivity.
Defined.

(** C4. A document for which [mappingData] returns the empty dict (in
    range mode, the timestamp is outside the window) is not left out of the
    bulk request: [processChunk] appends for it an action whose index,
    identifier and source are all [None], between the actions of the
    documents before and after it. *)
Theorem rejected_document_yields_action (w : World) (cfg : SdConfig)
    (s : Self) (data : pyval) (before after : chunk) :
  mappingData w cfg s data = Ok (PDict []) ->
  processChunk w cfg s (before ++ data :: after)
  = processChunk w cfg s before
    ++ mkAction PNone PNone PNone :: processChunk w cfg s after.
Proof.
  intros Hmap. rewrite processChunk_app. simpl.
  unfold map_item. rewrite Hmap. reflexivity.
Qed.

Lemma rejected_document_yields_action_witness :
  let cfg := Samples.cfg_range "epoch_second" in
  let s := snd (getData py_int cfg init) in
  gte s = PInt Samples.jan_1_2024 /\ lte s = PInt Samples.jan_31_2024 /\
  processChunk Samples.world_ok cfg s
    ([Samples.hit "a" Samples.jan_1_2024]
     ++ Samples.hit "late" Samples.mar_1_2024 :: [])
  = [mkAction (PStr "logs-202401") (PStr "a")
              (PDict [("ts", PInt Samples.jan_1_2024)]);
     mkAction PNone PNone PNone].
Proof.
  intros cfg s. split; [reflexivity|]. split; [reflexivity|].
  rewrite (rejected_document_yields_action Samples.world_ok cfg s
             (Samples.hit "late" Samples.mar_1_2024)
             [Samples.hit "a" Samples.jan_1_2024] []).
  - reflexivity.
  - reflexivity.
Defined.

(** C5. When a connection object already exists, [ensureConnectionES]
    connects again whatever the state of the existing client: a new client
    is constructed and stored, and the call succeeds or raises with the
    ping of that new client. *)
Theorem existing_connection_replaced (w : World) (s : Self)
    (e : SdElasticConnect) :
  es s = Some e ->
  ensureConnectionES w s
  = (if es_ping w (clients s) then Ok tt else Raise ConnectionError,
     new_client s).
Proof.
  intros He. rewrite (ensureConnectionES_existing w s e He).
  unfold connect. rewrite He. destruct (es_ping w (clients s)); reflexivity.
Qed.

Lemma existing_connection_replaced_witness :
  let s := snd (ensureConnectionES Samples.world_ok init) in
  es s = Some (mkConnect (Some 1%nat)) /\
  ensureConnectionES Samples.world_ok s = (Ok tt, new_client s) /\
  es (new_client s) = Some (mkConnect (Some 2%nat)).
Proof.
  intros s. split; [reflexivity|]. split; [|reflexivity].
  apply (existing_connection_replaced Samples.world_ok s
           (mkConnect (Some 1%nat))).
  reflexivity.
Defined.

(** C6. In range mode with the time representation [epoch_millis], the
    bounds that [getData] stores for the re-validation are those of
    [dateToEpoch] without its [millis] flag, that is epoch seconds. *)
Theorem millis_bounds_in_seconds (int : string -> option Z) (cfg : SdConfig)
    (s : Self) (lo hi : pyval) :
  USED_QUERY cfg <> "no" ->
  ISO_FORMAT cfg = Some "epoch_millis" ->
  dateToEpoch int (of_opt_str (GTE cfg)) false = Ok lo ->
  dateToEpoch int (of_opt_str (LTE cfg)) false = Ok hi ->
  getData int cfg s = (Ok (SearchQuery lo hi), with_bounds s lo hi).
Proof.
  intros Hused Hiso Hlo Hhi. unfold getData.
  destruct (String.eqb (USED_QUERY cfg) "no") eqn:Hq.
  - apply String.eqb_eq in Hq. contradiction.
  - rewrite Hiso. simpl. rewrite Hlo, Hhi. reflexivity.
Qed.

Lemma millis_bounds_in_seconds_witness :
  let cfg := Samples.cfg_range "epoch_millis" in
  getData py_int cfg init
  = (Ok (SearchQuery (PInt 1704067200) (PInt 1706659200)),
     with_bounds init (PInt 1704067200) (PInt 1706659200)) /\
  dateToEpoch py_int (of_opt_str (GTE cfg)) true = Ok (PInt 1704067200000) /\
  dateToEpoch py_int (of_opt_str (LTE cfg)) true = Ok (PInt 1706659200000).
Proof.
  intros cfg. split; [|split; reflexivity].
  apply (millis_bounds_in_seconds py_int cfg init
           (PInt 1704067200) (PInt 1706659200)).
  - discriminate.
  - reflexivity.
  - reflexivity.
  - reflexivity.
Defined.

End ChunkFacts.


(* ================================================================== *)
(** ** Configuration validation *)
(* ================================================================== *)

Module ValidatorFacts.
Import SdModel SdValidator.

Section Engine.

Variable int : string -> option Z.

Lemma check_bounded_ok sec key upper m1 m2 m3 value :
  check_bounded int sec key upper m1 m2 m3 = Some (value, []) ->
  exists text n,
    option_of sec key = Some text /\ int text = Some n /\
    value = Some n /\ 1 <= n <= upper.
Proof.
  unfold check_bounded. intros H.
  destruct (option_of sec key) as [text|] eqn:Hopt; [|discriminate].
  destruct (int text) as [n|] eqn:Hint; [|discriminate].
  destruct (n <? 1) eqn:Hlo; [discriminate|].
  destruct (upper <? n) eqn:Hhi; [discriminate|].
  inversion H; subst. exists text, n.
  apply Z.ltb_ge in Hlo. apply Z.ltb_ge in Hhi. repeat split; auto; lia.
Qed.

Lemma check_bounded_above sec key upper m1 m2 m3 text n :
  option_of sec key = Some text -> int text = Some n ->
  1 <= upper -> upper < n ->
  check_bounded int sec key upper m1 m2 m3 = Some (Some n, [m2]).
Proof.
  intros Hopt Hint Hup Hn. unfold check_bounded. rewrite Hopt, Hint.
  assert (Hlo : (n <? 1) = false) by (apply Z.ltb_ge; lia).
  assert (Hhi : (upper <? n) = true) by (apply Z.ltb_lt; lia).
  now rewrite Hlo, Hhi.
Qed.

(** Whatever [validate_engine_config] rejects, it leaves the object as it
    was and reports at least one error. *)
Lemma validate_engine_config_rejects self errors self' :
  validate_engine_config int self = ((false, errors), self') ->
  errors <> [] /\ self' = self.
Proof.
  unfold validate_engine_config. intros H.
  destruct (section_of (config self) "engine") as [sec|];
    [|inversion H; split; [discriminate|reflexivity]].
  destruct (check_bounded int sec "batch_size" 1000 _ _ _)
    as [[batch errors1]|] eqn:H1;
    [|inversion H; split; [discriminate|reflexivity]].
  destruct (check_bounded int sec "max_retry_connection" 10 _ _ _)
    as [[retry errors2]|] eqn:H2;
    [|inversion H; split; [discriminate|reflexivity]].
  destruct (option_of sec "format_date") as [fmt|];
    [|inversion H; split; [discriminate|reflexivity]].
  destruct (errors1 ++ errors2 ++ _) as [|e rest] eqn:Herr.
  - apply app_eq_nil in Herr. destruct Herr as [He1 Herr].
    apply app_eq_nil in Herr. destruct Herr as [He2 _]. subst.
    destruct (check_bounded_ok _ _ _ _ _ _ _ H1) as (? & ? & _ & _ & Hb & _).
    destruct (check_bounded_ok _ _ _ _ _ _ _ H2) as (? & ? & _ & _ & Hr & _).
    subst. discriminate.
  - destruct batch, retry; inversion H; split; (discriminate || reflexivity).
Qed.

End Engine.

(** C10. [validate_engine_config] accepts a configuration only with
    [1 <= batch_size <= 1000] and [1 <= max_retry_connection <= 10], the
    two numbers being those that [int] reads from the options, and stores
    them; and a
    [batch_size] above 1000 or a [max_retry_connection] above 10 makes it
    return [False] with at least one error and store no configuration. *)
Theorem engine_config_limits (int : string -> option Z) (self : validator)
    (ok : bool) (errors : list string) (self' : validator) :
  validate_engine_config int self = ((ok, errors), self') ->
  (ok = true ->
   exists sec tb tr b r fmt,
     section_of (config self) "engine" = Some sec /\
     option_of sec "batch_size" = Some tb /\ int tb = Some b /\
     option_of sec "max_retry_connection" = Some tr /\ int tr = Some r /\
     option_of sec "format_date" = Some fmt /\
     1 <= b <= 1000 /\ 1 <= r <= 10 /\
     _engine_config self' = Some (mkEngineConfig b r fmt)) /\
  (forall sec text n,
     section_of (config self) "engine" = Some sec ->
     option_of sec "batch_size" = Some text -> int text = Some n ->
     1000 < n ->
     ok = false /\ errors <> [] /\ self' = self) /\
  (forall sec text n,
     section_of (config self) "engine" = Some sec ->
     option_of sec "max_retry_connection" = Some text -> int text = Some n ->
     10 < n ->
     ok = false /\ errors <> [] /\ self' = self).
Proof.
  intros Hrun. split; [|split].
  - intros Hok. subst ok. unfold validate_engine_config in Hrun.
    destruct (section_of (config self) "engine") as [sec|]; [|discriminate].
    destruct (check_bounded int sec "batch_size" 1000 _ _ _)
      as [[batch errors1]|] eqn:H1; [|discriminate].
    destruct (check_bounded int sec "max_retry_connection" 10 _ _ _)
      as [[retry errors2]|] eqn:H2; [|discriminate].
    destruct (option_of sec "format_date") as [fmt|] eqn:Hfmt; [|discriminate].
    destruct (errors1 ++ errors2 ++ _) eqn:Herr; [|discriminate].
    apply app_eq_nil in Herr. destruct Herr as [He1 Herr].
    apply app_eq_nil in Herr. destruct Herr as [He2 _]. subst.
    destruct (check_bounded_ok int _ _ _ _ _ _ _ H1)
      as (tb & b & Htb & Hb & Hbatch & Hbb).
    destruct (check_bounded_ok int _ _ _ _ _ _ _ H2)
      as (tr & r & Htr & Hr & Hretry & Hrb).
    subst. inversion Hrun; subst.
    exists sec, tb, tr, b, r, fmt. simpl. repeat split; auto; lia.
  - intros sec text n Hsec Hopt Hint Hn.
    destruct ok.
    + exfalso. unfold validate_engine_config in Hrun. rewrite Hsec in Hrun.
      rewrite (check_bounded_above int sec "batch_size" 1000 _ _ _ text n)
        in Hrun by (auto; lia).
      destruct (check_bounded int sec "max_retry_connection" 10 _ _ _)
        as [[retry errors2]|]; [|discriminate].
      destruct (option_of sec "format_date"); [|discriminate].
      simpl in Hrun. discriminate.
    + split; [reflexivity|].
      apply (validate_engine_config_rejects int self errors self' Hrun).
  - intros sec text n Hsec Hopt Hint Hn.
    destruct ok.
    + exfalso. unfold validate_engine_config in Hrun. rewrite Hsec in Hrun.
      rewrite (check_bounded_above int sec "max_retry_connection" 10 _ _ _
                 text n) in Hrun by (auto; lia).
      destruct (check_bounded int sec "batch_size" 1000 _ _ _)
        as [[batch errors1]|]; [|discriminate].
      destruct (option_of sec "format_date"); [|discriminate].
      destruct errors1; simpl in Hrun; discriminate.
    + split; [reflexivity|].
      apply (validate_engine_config_rejects int self errors self' Hrun).
Qed.

Lemma engine_config_limits_witness :
  let accepted := Samples.fresh_validator (Samples.engine_ini "500" "3" "YYYYmm") in
  let rejected := Samples.fresh_validator (Samples.engine_ini "1001" "3" "YYYYmm") in
  _engine_config (snd (validate_engine_config py_int accepted))
  = Some (mkEngineConfig 500 3 "YYYYmm") /\
  fst (validate_engine_config py_int rejected)
  = (false, ["batch_size must be less than equal to 1000"]) /\
  snd (validate_engine_config py_int rejected) = rejected.
Proof.
  intros accepted rejected.
  split.
  - destruct (engine_config_limits py_int accepted true []
                (snd (validate_engine_config py_int accepted)))
      as [Hok _]; [vm_compute; reflexivity|].
    destruct (Hok eq_refl) as (sec & tb & tr & b & r & fmt & Hsec & Htb & Hb
                               & Htr & Hr & Hfmt & _ & _ & Hcfg).
    vm_compute in Hsec. inversion Hsec; subst sec.
    vm_compute in Hfmt. inversion Hfmt; subst fmt.
    vm_compute in Htb. inversion Htb; subst tb.
    vm_compute in Htr. inversion Htr; subst tr.
    vm_compute in Hb. inversion Hb; subst b.
    vm_compute in Hr. inversion Hr; subst r.
    rewrite Hcfg. vm_compute. reflexivity.
  - destruct (engine_config_limits py_int rejected false
                ["batch_size must be less than equal to 1000"] rejected)
      as (_ & Habove & _); [vm_compute; reflexivity|].
    destruct (Habove
                [("batch_size", "1001"); ("max_retry_connection", "3");
                 ("format_date", "YYYYmm")] "1001" 1001)
      as (_ & _ & _); try (vm_compute; reflexivity); try lia.
    split; vm_compute; reflexivity.
Defined.

End ValidatorFacts.

(* ================================================================== *)
(** ** The utilities *)
(* ================================================================== *)

Module UtilityFacts.
Import SdModel SdUtility.








End UtilityFacts.

(* ================================================================== *)
(** ** The mapper *)
(* ================================================================== *)

Module MapperFacts.
Import SdModel SdUtility SdElastic SplitDex ChunkFacts.

Section Mapper.

Variable w : World.
Variable cfg : SdConfig.




End Mapper.








End MapperFacts.

(* ================================================================== *)
(** ** Connecting and retrying *)
(* ================================================================== *)

Module RetryFacts.
Import SdModel SdUtility SdElastic SplitDex ChunkFacts.

Section Retry.

Variable w : World.
Variable cfg : SdConfig.




End Retry.










End RetryFacts.

(* ================================================================== *)
(** ** More on the configuration and on documents without a date *)
(* ================================================================== *)

Module ConfigFacts.
Import SdModel SdUtility SdValidator SdElastic SplitDex.
Import ValidatorFacts ChunkFacts MapperFacts.

Section Engine.

Variable int : string -> option Z.




End Engine.











End ConfigFacts.

(* ================================================================== *)
(** ** Runs of the threads *)
(* ================================================================== *)

Module PoolFacts.
Import SdModel SdUtility SdElastic SplitDex Threads ChunkFacts.

(** *** Lists of consumers *)

Lemma nth_error_split {A : Type} (l : list A) : forall i x,
  nth_error l i = Some x ->
  exists l1 l2,
    l = l1 ++ x :: l2 /\ forall y, replace_nth i y l = l1 ++ y :: l2.
Proof.
  induction l as [|a l IH]; intros [|i] x H; simpl in H; try discriminate.
  - inversion H; subst. exists [], l. split; reflexivity.
  - destruct (IH i x H) as (l1 & l2 & Hl & Hr).
    exists (a :: l1), l2. split.
    + simpl. now rewrite <- Hl.
    + intros y. simpl. now rewrite Hr.
Qed.

Lemma sum_Z_app l1 l2 : sum_Z (l1 ++ l2) = sum_Z l1 + sum_Z l2.
Proof. induction l1 as [|x l1 IH]; simpl; lia. Qed.

Lemma sum_nat_app l1 l2 : sum_nat (l1 ++ l2) = (sum_nat l1 + sum_nat l2)%nat.
Proof. induction l1 as [|x l1 IH]; simpl; lia. Qed.

Lemma queue_chunks_app q1 q2 :
  queue_chunks (q1 ++ q2) = queue_chunks q1 ++ queue_chunks q2.
Proof. unfold queue_chunks. apply flat_map_app. Qed.

(** *** Moving a chunk between the queue, a consumer and the record *)

Lemma perm_take {A : Type} (c : A) (Q H1 H2 R : list A) :
  Permutation (c :: Q ++ (H1 ++ H2) ++ R) (Q ++ (H1 ++ c :: H2) ++ R).
Proof.
  replace (Q ++ (H1 ++ c :: H2) ++ R) with ((Q ++ H1) ++ c :: (H2 ++ R)).
  - replace (Q ++ (H1 ++ H2) ++ R) with ((Q ++ H1) ++ (H2 ++ R)).
    + apply Permutation_middle.
    + now rewrite <- !app_assoc.
  - rewrite <- !app_assoc. simpl. reflexivity.
Qed.

Lemma perm_finish {A : Type} (c : A) (Q H1 H2 R : list A) :
  Permutation (Q ++ (H1 ++ c :: H2) ++ R) (Q ++ (H1 ++ H2) ++ R ++ [c]).
Proof.
  apply Permutation_app_head.
  rewrite <- !app_assoc. apply Permutation_app_head. simpl.
  rewrite app_assoc.
  apply Permutation_sym, Permutation_trans with (c :: H2 ++ R).
  - apply Permutation_sym, Permutation_cons_append.
  - reflexivity.
Qed.

Lemma perm_put {A : Type} (c : A) (L Q H R : list A) :
  Permutation L (Q ++ H ++ R) ->
  Permutation (L ++ [c]) ((Q ++ [c]) ++ H ++ R).
Proof.
  intros HP. rewrite <- app_assoc. simpl.
  apply Permutation_trans with (c :: L).
  - apply Permutation_sym, Permutation_cons_append.
  - apply Permutation_trans with (c :: Q ++ H ++ R).
    + now constructor.
    + apply Permutation_middle.
Qed.

Section Pool.

Variable w : World.
Variable cfg : SdConfig.
Variable s0 : Self.

Ltac open_accounted H :=
  destruct H as (Htot & Hperm & Hunf & Hent & Hcar & Hg & Hl).

Ltac sums :=
  repeat rewrite ?map_app, ?sum_Z_app, ?sum_nat_app, ?flat_map_app,
    ?length_app, ?queue_chunks_app in *;
  simpl in *.

(** *** The producer keeps the account *)

Lemma queue_put_accounted x p p' :
  queue_put w x p = Some p' ->
  accounted w cfg s0 p ->
  forall st, accounted w cfg s0 (with_producer p' st).
Proof.
  unfold queue_put. intros Hput Hacc st.
  destruct (List.length (chunkQueue (self p)) <? capacity w)%nat;
    [|discriminate].
  inversion Hput; subst; clear Hput. open_accounted Hacc.
  unfold accounted. simpl. sums.
  split; [exact Htot|]. split; [|split; [lia|auto]].
  destruct x as [c|]; simpl.
  - apply perm_put. exact Hperm.
  - rewrite app_nil_r. exact Hperm.
Qed.

Lemma producer_step_accounted p p' :
  producer_step w cfg p = Some p' ->
  accounted w cfg s0 p -> accounted w cfg s0 p'.
Proof.
  unfold producer_step. intros Hstep Hacc.
  destruct (producer p) as [data current|current data|current|current|
                            |remaining raised|raised].
  - destruct data as [| |doc rest].
    + inversion Hstep; subst. exact Hacc.
    + inversion Hstep; subst. exact Hacc.
    + destruct (stopEvent (self p)).
      * inversion Hstep; subst. exact Hacc.
      * destruct (BATCH_SIZE cfg <=? _); inversion Hstep; subst; exact Hacc.
  - destruct (queue_put w (Some current) p) as [p1|] eqn:Hput;
      [|discriminate].
    inversion Hstep; subst. eapply queue_put_accounted; eassumption.
  - destruct current as [|doc current].
    + inversion Hstep; subst. exact Hacc.
    + destruct (stopEvent (self p)); inversion Hstep; subst; exact Hacc.
  - destruct (queue_put w (Some current) p) as [p1|] eqn:Hput;
      [|discriminate].
    inversion Hstep; subst. eapply queue_put_accounted; eassumption.
  - simpl in Hstep. inversion Hstep; subst. exact Hacc.
  - destruct remaining as [|remaining].
    + inversion Hstep; subst. exact Hacc.
    + destruct (queue_put w None p) as [p1|] eqn:Hput; [|discriminate].
      inversion Hstep; subst. eapply queue_put_accounted; eassumption.
  - discriminate.
Qed.

(** *** A consumer keeps the account *)

Lemma accounted_self p s1 :
  accounted w cfg s0 p -> same_shared (self p) s1 ->
  accounted w cfg s0 (with_self p s1).
Proof.
  intros Hacc (Hg1 & Hl1 & Hq1 & Hs1 & Hts & Htf). open_accounted Hacc.
  unfold accounted. simpl. rewrite Hts, Htf, Hq1.
  repeat split; auto; try congruence; apply Htot; assumption.
Qed.

(** A step that changes nothing of what the account counts. *)
Lemma accounted_moves p l1 st l2 st' :
  consumers p = l1 ++ st :: l2 ->
  accounted w cfg s0 p ->
  held st' = held st -> holding st' = holding st ->
  pending_success st' = pending_success st ->
  pending_failed st' = pending_failed st ->
  carries w cfg s0 st' ->
  accounted w cfg s0 (with_consumers p (l1 ++ st' :: l2)).
Proof.
  intros Hc Hacc Hheld Hhold Hps Hpf Hcarries. open_accounted Hacc.
  unfold accounted. rewrite Hc in *. simpl. sums.
  rewrite Hheld, Hhold, Hps, Hpf.
  split; [exact Htot|]. split; [exact Hperm|]. split; [exact Hunf|].
  split; [exact Hent|]. split; [|auto].
  apply Forall_app in Hcar. destruct Hcar as [Hc1 Hc2].
  apply Forall_app. split; [exact Hc1|].
  inversion Hc2; subst. constructor; assumption.
Qed.

(** The return of [processAndIndexChunk] for the chunk that the consumer
    holds. *)
Lemma returns_accounted p l1 st l2 c success failed how :
  consumers p = l1 ++ st :: l2 ->
  accounted w cfg s0 p ->
  held st = [c] -> holding st = 1%nat ->
  pending_success st = 0 -> pending_failed st = 0 ->
  entry_ok w cfg s0 (mkEntry c success failed how) ->
  accounted w cfg s0
    (with_consumers (snd (returns c success failed how p))
       (l1 ++ fst (returns c success failed how p) :: l2)).
Proof.
  intros Hc Hacc Hheld Hhold Hps Hpf Hok. open_accounted Hacc.
  unfold accounted, returns. rewrite Hc in *. simpl. sums.
  rewrite Hheld, Hhold, Hps, Hpf in *. simpl in *.
  split; [|split; [|split; [|split; [|split]]]].
  - intros Hr. destruct (Htot Hr) as [H1 H2]. lia.
  - eapply Permutation_trans; [exact Hperm|]. apply perm_finish.
  - exact Hunf.
  - apply Forall_app. split; [exact Hent|]. constructor; [exact Hok|constructor].
  - apply Forall_app in Hcar. destruct Hcar as [Hc1 Hc2].
    apply Forall_app. split; [exact Hc1|].
    inversion Hc2; subst. constructor; [exact I|assumption].
  - auto.
Qed.

Lemma loop_test_accounted p l1 st l2 c n :
  consumers p = l1 ++ st :: l2 ->
  accounted w cfg s0 p ->
  held st = [c] -> holding st = 1%nat ->
  pending_success st = 0 -> pending_failed st = 0 ->
  accounted w cfg s0
    (with_consumers (snd (loop_test cfg c n p))
       (l1 ++ fst (loop_test cfg c n p) :: l2)).
Proof.
  intros Hc Hacc Hheld Hhold Hps Hpf. unfold loop_test.
  destruct (n <? MAX_RETRY_CONNECTION cfg).
  - simpl. apply (accounted_moves p l1 st l2); auto. exact I.
  - apply (returns_accounted p l1 st l2); auto.
    unfold entry_ok. simpl. auto.
Qed.

Lemma with_self_consumers p s1 l :
  with_consumers (with_self p s1) l = with_self (with_consumers p l) s1.
Proof. reflexivity. Qed.

Lemma accounted_moves_self p l1 st l2 st' s1 :
  consumers p = l1 ++ st :: l2 ->
  accounted w cfg s0 p ->
  same_shared (self p) s1 ->
  held st' = held st -> holding st' = holding st ->
  pending_success st' = pending_success st ->
  pending_failed st' = pending_failed st ->
  carries w cfg s0 st' ->
  accounted w cfg s0 (with_consumers (with_self p s1) (l1 ++ st' :: l2)).
Proof.
  intros Hc Hacc Hsh Hheld Hhold Hps Hpf Hcarries.
  rewrite with_self_consumers. apply accounted_self.
  - apply (accounted_moves p l1 st l2); assumption.
  - exact Hsh.
Qed.

Lemma consumer_step_accounted p l1 st l2 st' p' :
  consumers p = l1 ++ st :: l2 ->
  consumer_step w cfg st p = Some (st', p') ->
  accounted w cfg s0 p ->
  consumers p' = consumers p /\
  accounted w cfg s0 (with_consumers p' (l1 ++ st' :: l2)).
Proof.
  intros Hc Hstep Hacc.
  destruct st as [| |[c|]|c n|c actions|c n|su fa|seen su fa|fa|seen fa| |];
    simpl in Hstep.
  - (* the test of the stop event *)
    destruct (stopEvent (self p)); inversion Hstep; subst;
      (split; [reflexivity|]);
      apply (accounted_moves _ l1 CTest l2); auto; exact I.
  - (* get *)
    unfold queue_get in Hstep.
    destruct (chunkQueue (self p)) as [|x q] eqn:Hq; [discriminate|].
    inversion Hstep; subst; clear Hstep. split; [reflexivity|].
    open_accounted Hacc. unfold accounted. rewrite Hc, Hq in *.
    simpl. sums.
    split; [exact Htot|]. split; [|split; [lia|]].
    + destruct x as [c|]; simpl in *; [|exact Hperm].
      eapply Permutation_trans; [exact Hperm|]. apply perm_take.
    + split; [exact Hent|]. split; [|auto].
      apply Forall_app in Hcar. destruct Hcar as [Hc1 Hc2].
      apply Forall_app. split; [exact Hc1|].
      inversion Hc2; subst. constructor; [exact I|assumption].
  - (* a chunk was got *)
    inversion Hstep as [Hloop]; clear Hstep.
    pose proof (loop_test_accounted p l1 (CGot (Some c)) l2 c 0 Hc Hacc
                  eq_refl eq_refl eq_refl eq_refl) as H.
    rewrite Hloop in H. simpl in H. split; [|exact H].
    unfold loop_test, returns in Hloop.
    destruct (0 <? MAX_RETRY_CONNECTION cfg); inversion Hloop; reflexivity.
  - (* the signal was got *)
    inversion Hstep; subst; clear Hstep. split; [reflexivity|].
    open_accounted Hacc. unfold accounted, task_done. rewrite Hc in *.
    simpl. sums.
    split; [exact Htot|]. split; [exact Hperm|]. split; [lia|].
    split; [exact Hent|]. split; [|auto].
    apply Forall_app in Hcar. destruct Hcar as [Hc1 Hc2].
    apply Forall_app. split; [exact Hc1|].
    inversion Hc2; subst. constructor; [exact I|assumption].
  - (* connecting *)
    pose proof (ensureConnectionES_shared w (self p)) as Hsh.
    destruct (ensureConnectionES w (self p)) as [[[]|e] s1]; simpl in Hsh.
    + assert (Hpc : processChunk w cfg s1 c = processChunk w cfg s0 c).
      { destruct Hacc as (_ & _ & _ & _ & _ & Hg & Hl).
        apply processChunk_bounds.
        - destruct Hsh as (H1 & _). congruence.
        - destruct Hsh as (_ & H2 & _). congruence. }
      destruct (processChunk w cfg s1 c) as [|a actions] eqn:Hact.
      * inversion Hstep; subst; clear Hstep. split; [reflexivity|].
        apply (returns_accounted (with_self p s1) l1 (CConnect c n) l2);
          auto; try (apply accounted_self; assumption).
        unfold entry_ok. simpl. auto.
      * inversion Hstep; subst; clear Hstep. split; [reflexivity|].
        apply (accounted_moves_self p l1 (CConnect c n) l2); auto.
    + inversion Hstep; subst; clear Hstep. split; [reflexivity|].
      apply (accounted_moves_self p l1 (CConnect c n) l2); auto; exact I.
  - (* the bulk call *)
    pose proof (bulkIndex_shared w (self p) actions) as Hsh.
    assert (Hcarry : actions = processChunk w cfg s0 c).
    { destruct Hacc as (_ & _ & _ & _ & Hcar & _). rewrite Hc in Hcar.
      apply Forall_app in Hcar. destruct Hcar as [_ Hc2].
      inversion Hc2; subst. assumption. }
    unfold bulkIndex in *.
    destruct (es (self p)).
    + destruct (es_bulk w (bulks (self p)) actions) as [[su fa]|e] eqn:Hk;
        simpl in Hsh; inversion Hstep; subst; clear Hstep;
        (split; [reflexivity|]).
      * apply (returns_accounted (with_self p (count_bulk (self p))) l1
                 (CBulk c (processChunk w cfg s0 c)) l2); auto;
          try (apply accounted_self; assumption).
      * apply (accounted_moves_self p l1
                 (CBulk c (processChunk w cfg s0 c)) l2); auto; exact I.
    + simpl in Hsh. inversion Hstep; subst; clear Hstep.
      split; [reflexivity|].
      apply (accounted_moves_self p l1
               (CBulk c (processChunk w cfg s0 c)) l2); auto; exact I.
  - (* the handler *)
    pose proof (on_error_shared cfg n (self p)) as Hsh.
    destruct (on_error cfg n (self p)) as [n' s1]. simpl in Hsh.
    inversion Hstep as [Hloop]; clear Hstep.
    pose proof (loop_test_accounted (with_self p s1) l1 (CHandler c n) l2 c n'
                  Hc (accounted_self p s1 Hacc Hsh)
                  eq_refl eq_refl eq_refl eq_refl) as H.
    rewrite Hloop in H. simpl in H. split; [|exact H].
    unfold loop_test, returns in Hloop.
    destruct (n' <? MAX_RETRY_CONNECTION cfg); inversion Hloop; reflexivity.
  - (* reading totalSuccess *)
    inversion Hstep; subst; clear Hstep. split; [reflexivity|].
    apply (accounted_moves _ l1 (CLoadSuccess su fa) l2); auto. exact I.
  - (* writing totalSuccess *)
    inversion Hstep; subst; clear Hstep. split; [reflexivity|].
    open_accounted Hacc. unfold accounted. rewrite Hc in *. simpl. sums.
    split; [|split; [exact Hperm|split; [exact Hunf|]]].
    + intros Hr. apply orb_false_iff in Hr. destruct Hr as [Hr Hseen].
      apply negb_false_iff, Z.eqb_eq in Hseen.
      destruct (Htot Hr) as [H1 H2]. lia.
    + split; [exact Hent|]. split; [|auto].
      apply Forall_app in Hcar. destruct Hcar as [Hc1 Hc2].
      apply Forall_app. split; [exact Hc1|].
      inversion Hc2; subst. constructor; [exact I|assumption].
  - (* reading totalFailed *)
    inversion Hstep; subst; clear Hstep. split; [reflexivity|].
    apply (accounted_moves _ l1 (CLoadFailed fa) l2); auto. exact I.
  - (* writing totalFailed *)
    inversion Hstep; subst; clear Hstep. split; [reflexivity|].
    open_accounted Hacc. unfold accounted. rewrite Hc in *. simpl. sums.
    split; [|split; [exact Hperm|split; [exact Hunf|]]].
    + intros Hr. apply orb_false_iff in Hr. destruct Hr as [Hr Hseen].
      apply negb_false_iff, Z.eqb_eq in Hseen.
      destruct (Htot Hr) as [H1 H2]. lia.
    + split; [exact Hent|]. split; [|auto].
      apply Forall_app in Hcar. destruct Hcar as [Hc1 Hc2].
      apply Forall_app. split; [exact Hc1|].
      inversion Hc2; subst. constructor; [exact I|assumption].
  - (* task_done *)
    inversion Hstep; subst; clear Hstep. split; [reflexivity|].
    open_accounted Hacc. unfold accounted, task_done. rewrite Hc in *.
    simpl. sums.
    split; [exact Htot|]. split; [exact Hperm|]. split; [lia|].
    split; [exact Hent|]. split; [|auto].
    apply Forall_app in Hcar. destruct Hcar as [Hc1 Hc2].
    apply Forall_app. split; [exact Hc1|].
    inversion Hc2; subst. constructor; [exact I|assumption].
  - discriminate.
Qed.

(** *** Every schedule keeps the account *)

Lemma step_accounted t p p' :
  step w cfg t p = Some p' ->
  accounted w cfg s0 p -> accounted w cfg s0 p'.
Proof.
  destruct t as [|i|]; simpl; intros Hstep Hacc.
  - eapply producer_step_accounted; eassumption.
  - destruct (nth_error (consumers p) i) as [st|] eqn:Hnth; [|discriminate].
    destruct (consumer_step w cfg st p) as [[st' p1]|] eqn:Hcs;
      [|discriminate].
    inversion Hstep; subst; clear Hstep.
    destruct (nth_error_split (consumers p) i st Hnth) as (l1 & l2 & Hl & Hr).
    destruct (consumer_step_accounted p l1 st l2 st' p1 Hl Hcs Hacc)
      as [Hsame Hacc1].
    rewrite Hsame, Hr. exact Hacc1.
  - inversion Hstep; subst; clear Hstep.
    destruct Hacc as (Htot & Hperm & Hunf & Hent & Hcar & Hg & Hl).
    unfold accounted. simpl. auto 10.
Qed.

Lemma run_accounted schedule : forall p,
  accounted w cfg s0 p -> accounted w cfg s0 (run w cfg schedule p).
Proof.
  induction schedule as [|t schedule IH]; intros p Hacc; simpl; [exact Hacc|].
  apply IH. destruct (step w cfg t p) as [p'|] eqn:Hstep; [|exact Hacc].
  eapply step_accounted; eassumption.
Qed.

Lemma idle_consumers n :
  sum_Z (map pending_success (repeat CTest n)) = 0 /\
  sum_Z (map pending_failed (repeat CTest n)) = 0 /\
  flat_map held (repeat CTest n) = [] /\
  sum_nat (map holding (repeat CTest n)) = O /\
  Forall (carries w cfg s0) (repeat CTest n).
Proof.
  induction n as [|n (H1 & H2 & H3 & H4 & H5)]; simpl.
  - repeat split; constructor.
  - repeat split; auto. constructor; [exact I|exact H5].
Qed.

Lemma start_accounted data :
  chunkQueue s0 = [] -> accounted w cfg s0 (start w data s0).
Proof.
  intros Hq. destruct (idle_consumers (workers w)) as (H1 & H2 & H3 & H4 & H5).
  unfold accounted, start. simpl. rewrite H1, H2, H3, H4, Hq. simpl.
  repeat split; auto; lia.
Qed.

Lemma gone_consumers l :
  forallb is_exit l = true ->
  sum_Z (map pending_success l) = 0 /\
  sum_Z (map pending_failed l) = 0 /\
  flat_map held l = [] /\
  sum_nat (map holding l) = O.
Proof.
  induction l as [|st l IH]; simpl; intros H; [auto|].
  apply andb_true_iff in H. destruct H as [Hst Hl].
  destruct (IH Hl) as (H1 & H2 & H3 & H4).
  destruct st; try discriminate. simpl. rewrite H1, H2, H3, H4. auto.
Qed.

(** When [action] returns, the totals are the sums of the counts
    returned for the chunks, and these chunks are those handed over. *)
Lemma finished_accounted p success failed :
  accounted w cfg s0 p ->
  finished p = Some (success, failed) ->
  raced p = false ->
  Permutation (handed p) (map entry_chunk (results p)) /\
  success = totalSuccess s0 + sum_Z (map entry_success (results p)) /\
  failed = totalFailed s0 + sum_Z (map entry_failed (results p)).
Proof.
  intros (Htot & Hperm & Hunf & _) Hfin Hr. unfold finished in Hfin.
  destruct (producer p); try discriminate.
  destruct (unfinished p =? 0)%nat eqn:Hu; [|discriminate].
  destruct (forallb is_exit (consumers p)) eqn:Hex; [|discriminate].
  simpl in Hfin. inversion Hfin; subst; clear Hfin.
  apply Nat.eqb_eq in Hu.
  destruct (gone_consumers _ Hex) as (H1 & H2 & H3 & H4).
  rewrite H1, H2 in Htot. rewrite H3 in Hperm. rewrite H4, Hu in Hunf.
  assert (Hq : chunkQueue (self p) = []).
  { destruct (chunkQueue (self p)); [reflexivity|simpl in Hunf; lia]. }
  rewrite Hq in Hperm. simpl in Hperm.
  destruct (Htot Hr) as [Hs Hf]. repeat split; [exact Hperm|lia|lia].
Qed.

(** With a bulk helper that reports one outcome per action, the counts
    of each return add up to its credit. *)
Lemma entries_credit l :
  sink_exact w ->
  Forall (entry_ok w cfg s0) l ->
  sum_Z (map entry_success l) + sum_Z (map entry_failed l)
  = total_credit w cfg s0 l.
Proof.
  intros Hsink. induction 1 as [|e l He Hl IH]; simpl; [reflexivity|].
  assert (Hone : entry_success e + entry_failed e = credit w cfg s0 e).
  { unfold entry_ok in He. unfold credit, exhausted, mapped.
    destruct (entry_outcome e) as [call| |].
    - apply (Hsink call). exact He.
    - destruct He as (Hnil & H1 & H2). rewrite Hnil. simpl. lia.
    - destruct He as (H1 & H2). lia. }
  lia.
Qed.

End Pool.



Section Queue.

Variable w : World.
Variable cfg : SdConfig.








(** A state in which no thread can change anything stays as it is. *)
Lemma run_stuck p :
  (forall t, step w cfg t p = None \/ step w cfg t p = Some p) ->
  forall schedule, run w cfg schedule p = p.
Proof.
  intros Hstuck. induction schedule as [|t schedule IH]; simpl; [reflexivity|].
  destruct (Hstuck t) as [H|H]; rewrite H; exact IH.
Qed.

End Queue.

Section Cut.

Variable w : World.
Variable cfg : SdConfig.
Variable data : stream.

Hypothesis batch_positive : 1 <= BATCH_SIZE cfg.






End Cut.

Section Flag.

Variable w : World.
Variable cfg : SdConfig.



End Flag.

Section Signals.

Variable w : World.
Variable cfg : SdConfig.










End Signals.

(** C1, corrected. For every schedule of the producer and the consumers
    on which [action] returns and no addition to a total writes over a
    change made since it read the total, with a bulk helper that reports
    one outcome per action: the chunks for which [processAndIndexChunk]
    returned are those that the producer handed over, each return has
    the counts of its exit (those of the bulk helper for the actions of
    the chunk, zeros for a chunk without actions, nothing and the whole
    chunk below the loop), and the two totals add up to the number of
    actions built for every chunk whose call did not use up its attempts
    and to the length of every chunk whose call did. *)
Theorem run_totals (int : string -> option Z) (w : World) (cfg : SdConfig)
    (data : stream) (schedule : list thread) (p0 : Pool)
    (success failed : Z) :
  sink_exact w ->
  action_start int w cfg data = Some p0 ->
  finished (run w cfg schedule p0) = Some (success, failed) ->
  raced (run w cfg schedule p0) = false ->
  Permutation (handed (run w cfg schedule p0))
              (map entry_chunk (results (run w cfg schedule p0))) /\
  Forall (entry_ok w cfg (self p0)) (results (run w cfg schedule p0)) /\
  success + failed
  = total_credit w cfg (self p0) (results (run w cfg schedule p0)).
Proof.
  intros Hsink Hstart Hfin Hrace.
  assert (Hp0 : exists s, p0 = start w data s /\ chunkQueue s = [] /\
                          totalSuccess s = 0 /\ totalFailed s = 0).
  { unfold action_start in Hstart.
    pose proof (ensureConnectionES_shared w init) as Hsh.
    destruct (ensureConnectionES w init) as [[[]|e] s1]; [|discriminate].
    simpl in Hsh. destruct Hsh as (_ & _ & Hq1 & _ & Hts1 & Htf1).
    unfold getData in Hstart.
    exists (self p0).
    destruct (String.eqb (USED_QUERY cfg) "no");
      [inversion Hstart; subst; simpl; auto|].
    destruct (ISO_FORMAT cfg) as [iso|];
      [|inversion Hstart; subst; simpl; auto].
    destruct (member ["epoch_millis"; "epoch_second"] iso);
      [|inversion Hstart; subst; simpl; auto].
    destruct (dateToEpoch int (of_opt_str (GTE cfg)) false);
      [|discriminate].
    destruct (dateToEpoch int (of_opt_str (LTE cfg)) false);
      [|discriminate].
    inversion Hstart; subst; simpl; auto. }
  destruct Hp0 as (s & Hp0 & Hq & Hts & Htf). subst p0. simpl self.
  pose proof (run_accounted w cfg s schedule _ (start_accounted w cfg s data Hq))
    as Hacc.
  destruct (finished_accounted w cfg s _ success failed Hacc Hfin Hrace)
    as (Hperm & Hs & Hf).
  destruct Hacc as (_ & _ & _ & Hent & _).
  split; [exact Hperm|]. split; [exact Hent|].
  rewrite <- (entries_credit w cfg s _ Hsink Hent). lia.
Qed.

Lemma run_totals_witness :
  let w := Samples.world_once in
  let cfg := Samples.cfg_all 2 1 in
  let data := stream_of Samples.two_mixed_chunks SEnd in
  let p0 := start w data (new_client (new_client init)) in
  let p := run w cfg Samples.in_turn p0 in
  map entry_outcome (results p) = [Written 0; Exhausted] /\
  Permutation (handed p) (map entry_chunk (results p)) /\
  Forall (entry_ok w cfg (self p0)) (results p) /\
  1 + 2 = total_credit w cfg (self p0) (results p).
Proof.
  intros w cfg data p0 p. split; [vm_compute; reflexivity|].
  apply (run_totals py_int w cfg data Samples.in_turn p0 1 2).
  - intros k actions success failed H. unfold w, Samples.world_once in H.
    simpl in H. destruct (Nat.eqb k 0); inversion H. lia.
  - vm_compute. reflexivity.
  - vm_compute. reflexivity.
  - vm_compute. reflexivity.
Defined.

(** C1, as stated, fails: with one attempt configured and a bulk helper
    that accepts its first call and raises in its second, the run over
    two chunks of one mappable and one unmappable document each, on the
    schedule [in_turn] where no addition meets another, returns
    [(1, 2)], whereas the mapper built two actions in all: the chunk
    whose attempts were used up is counted with its unmappable
    document. *)
Lemma run_totals_counterexample :
  let w := Samples.world_once in
  let cfg := Samples.cfg_all 2 1 in
  let data := stream_of Samples.two_mixed_chunks SEnd in
  exists p0,
    action_start py_int w cfg data = Some p0 /\
    finished (run w cfg Samples.in_turn p0) = Some (1, 2) /\
    raced (run w cfg Samples.in_turn p0) = false /\
    handed (run w cfg Samples.in_turn p0)
    = [[Samples.hit "a" Samples.jan_1_2024; Samples.bare "b"];
       [Samples.hit "c" Samples.jan_1_2024; Samples.bare "d"]] /\
    mapped_total w cfg (self p0) (handed (run w cfg Samples.in_turn p0)) = 2 /\
    1 + 2
    <> mapped_total w cfg (self p0) (handed (run w cfg Samples.in_turn p0)).
Proof.
  intros w cfg data.
  exists (start w data (new_client (new_client init))).
  split; [vm_compute; reflexivity|]. split; [vm_compute; reflexivity|].
  split; [vm_compute; reflexivity|]. split; [vm_compute; reflexivity|].
  split; [vm_compute; reflexivity|]. vm_compute. discriminate.
Qed.

(** C7, at the input where it fails. With a batch size of two, three
    workers and five documents, on the schedule [cancelled_early], where
    the stop event is set after the producer has read three documents
    and before the consumers have made their first test: the producer
    puts the first chunk, leaves its loop, drops the third document and
    puts two [None]s into the queue of three places; the consumers find
    the event set and leave without taking anything; the producer is at
    its third [put(None)] with the queue full. Whatever the threads do
    from there, nothing changes: two [None]s were put, not three, no
    consumer has taken one, the chunk in the queue is never processed,
    and [action] does not return. *)
Theorem producer_waits_on_full_queue :
  let w := Samples.world_ok in
  let cfg := Samples.cfg_all 2 3 in
  let p := run w cfg Samples.cancelled_early
               (start w (stream_of Samples.five_hits SEnd) init) in
  workers w = 3%nat /\
  stopEvent (self p) = true /\
  producer p = PFinally 1 false /\
  sentinels p = 2%nat /\
  chunkQueue (self p)
  = [Some [Samples.hit "a" 1; Samples.hit "b" 2]; None; None] /\
  consumers p = [CExit; CExit; CExit] /\
  results p = [] /\
  forall schedule,
    run w cfg schedule p = p /\ finished (run w cfg schedule p) = None.
Proof.
  intros w cfg p.
  assert (Hp : p = Samples.waiting_pool) by (vm_compute; reflexivity).
  clearbody p. subst p.
  split; [reflexivity|]. split; [reflexivity|]. split; [reflexivity|].
  split; [reflexivity|]. split; [reflexivity|]. split; [reflexivity|].
  split; [reflexivity|].
  assert (Hstuck : forall schedule,
            run w cfg schedule Samples.waiting_pool = Samples.waiting_pool).
  { apply run_stuck. intros [|i|].
    - left. vm_compute. reflexivity.
    - left. destruct i as [|[|[|i]]];
        [vm_compute; reflexivity|vm_compute; reflexivity
        |vm_compute; reflexivity|].
      unfold step.
      replace (nth_error (consumers Samples.waiting_pool) (S (S (S i))))
        with (@None cstate); [reflexivity|].
      simpl. destruct i; reflexivity.
    - right. vm_compute. reflexivity. }
  intros schedule. rewrite Hstuck. split; reflexivity.
Qed.














End PoolFacts.
